(** * Weather dashboard

    A model of the weather dashboard's TypeScript sources: the storage
    adapter (utils/storage), the weather client (services/weatherService),
    the observable state container (state/AppState), the view components
    (components/CurrentWeather, WeatherForecast, LocationSearch) and the
    controller (App), followed by the properties proved about them.

    Conventions.  A JavaScript number is a binary64 float, a string is a
    [string].  A function that may throw returns a [completion]; a
    [try]/[catch] is [try_catch].  What a component writes into its DOM
    container is kept as the data interpolated into the markup, one
    constructor per template. *)

From Stdlib Require Import ZArith Floats String Ascii List Lia.
From stdpp Require Import base option list gmap strings pretty.

Set Default Proof Using "Type".
Set Warnings "-register-all".

(* ================================================================== *)
(** * JavaScript values *)
(* ================================================================== *)

(** Normal or abrupt (throw) completion of a statement. *)
Inductive completion (E A : Type) : Type :=
| Normal (a : A)
| Throw (e : E).
Arguments Normal {E A} a.
Arguments Throw {E A} e.

Definition bind {E A B} (c : completion E A) (k : A -> completion E B) : completion E B :=
  match c with
  | Normal a => k a
  | Throw e => Throw e
  end.

(** [try { body } catch (e) { handler e }] *)
Definition try_catch {E E' A} (body : completion E A) (handler : E -> completion E' A) : completion E' A :=
  match body with
  | Normal a => Normal a
  | Throw e => handler e
  end.

Notation "x <~ c ;; k" := (bind c (fun x => k))
  (at level 100, c at next level, right associativity, only parsing).

Module Js.

(** [number]: an IEEE 754 double. *)
Definition number : Set := float.

(** The value of [Math.round x], as the template literal prints it: an
    integer (the sign of zero is not printed), [NaN] or an infinity. *)
Inductive rounded : Set :=
| Int (n : Z)
| NaN
| Infinity (negative : bool).

(** [Math.round]: the nearest integer, a tie going towards +infinity.  For
    the double [m * 2^e] that is [floor (m * 2^e + 1/2)]. *)
Definition Math_round (x : number) : rounded :=
  match Prim2SF x with
  | S754_nan => NaN
  | S754_infinity s => Infinity s
  | S754_zero _ => Int 0
  | S754_finite s m e =>
      let n := if s then Z.neg m else Z.pos m in
      Int (if (0 <=? e)%Z then n * 2 ^ e else (2 * n + 2 ^ (- e)) / 2 ^ (1 - e))%Z
  end.

(** A value as [JSON.parse] returns it.  The property names of an object
    are distinct. *)
Inductive value : Type :=
| Null
| Bool (b : bool)
| Num (n : number)
| Str (s : string)
| Arr (items : list value)
| Obj (fields : list (string * value)).

Fixpoint assoc (k : string) (fields : list (string * value)) : option value :=
  match fields with
  | [] => None
  | (k', v) :: rest => if String.eqb k k' then Some v else assoc k rest
  end.

(** [v.k] for [v] other than [null]; [None] is [undefined].  Used for the
    property names [name] and [country], which only an object can carry. *)
Definition prop (v : value) (k : string) : option value :=
  match v with
  | Obj fields => assoc k fields
  | _ => None
  end.

(** ToBoolean. *)
Definition truthy (v : value) : bool :=
  match v with
  | Null => false
  | Bool b => b
  | Num n => negb (is_zero n || is_nan n)
  | Str s => negb (String.eqb s "")
  | Arr _ | Obj _ => true
  end.

Definition truthy_opt (o : option value) : bool :=
  match o with
  | Some v => truthy v
  | None => false
  end.

(** The double quote character, for template literals that contain one. *)
Definition dq : string := String "034"%char EmptyString.

End Js.

(* ================================================================== *)
(** * types/weather.ts *)
(* ================================================================== *)

Inductive TemperatureUnit : Set := C | F.

Module WeatherLocation.
Record t := mk { name : string; country : string; lat : Js.number; lon : Js.number }.
End WeatherLocation.

Module CurrentConditions.
Record t := mk {
  temperature : Js.number;
  condition : string;
  description : string;
  humidity : Js.number;
  windSpeed : Js.number;
  pressure : Js.number;
  visibility : Js.number;
  uvIndex : Js.number;
  icon : string }.
End CurrentConditions.

Module DayForecast.
Record t := mk {
  date : string;
  maxTemp : Js.number;
  minTemp : Js.number;
  condition : string;
  description : string;
  icon : string;
  humidity : Js.number;
  windSpeed : Js.number }.
End DayForecast.

Module WeatherData.
Record t := mk {
  location : WeatherLocation.t;
  current : CurrentConditions.t;
  forecast : list DayForecast.t }.
End WeatherData.

Module LocationSuggestion.
Record t := mk {
  name : string;
  country : string;
  region : string;
  lat : Js.number;
  lon : Js.number }.

(** The object a [LocationSuggestion] is at run time. *)
Definition to_value (l : t) : Js.value :=
  Js.Obj [("name", Js.Str (name l)); ("country", Js.Str (country l));
          ("region", Js.Str (region l)); ("lat", Js.Num (lat l)); ("lon", Js.Num (lon l))].
End LocationSuggestion.

(** The provider's response schema ([WeatherApiResponse]). *)
Module ApiCondition.
Record t := mk { text : string; icon : string }.
End ApiCondition.

Module ApiLocation.
Record t := mk { name : string; region : string; country : string; lat : Js.number; lon : Js.number }.
End ApiLocation.

Module ApiCurrent.
Record t := mk {
  temp_c : Js.number;
  condition : ApiCondition.t;
  humidity : Js.number;
  wind_kph : Js.number;
  pressure_mb : Js.number;
  vis_km : Js.number;
  uv : Js.number }.
End ApiCurrent.

Module ApiDay.
Record t := mk {
  maxtemp_c : Js.number;
  mintemp_c : Js.number;
  condition : ApiCondition.t;
  avghumidity : Js.number;
  maxwind_kph : Js.number }.
End ApiDay.

Module ApiForecastDay.
Record t := mk { date : string; day : ApiDay.t }.
End ApiForecastDay.

(** [forecast] and [forecastday] are declared mandatory, and read with
    [?.] and [??]: they are optional here. *)
Module ApiForecast.
Record t := mk { forecastday : option (list ApiForecastDay.t) }.
End ApiForecast.

Module WeatherApiResponse.
Record t := mk {
  location : ApiLocation.t;
  current : ApiCurrent.t;
  forecast : option ApiForecast.t }.
End WeatherApiResponse.

(* ================================================================== *)
(** * utils/storage.ts *)
(* ================================================================== *)

Module Storage.

(** The text of a stored item, up to what [JSON.parse] makes of it: text
    that does not parse, or the text of a JSON value (white space and
    escapes are not kept). *)
Inductive text : Type :=
| Garbled (raw : string)
| Json (v : Js.value).

(** What the browser's [localStorage] raises. *)
Inductive exn : Set :=
| SecurityError
| QuotaExceededError
| SyntaxError.

(** The browser's [localStorage]: the stored items, whether the page is
    denied the store (every access raises), and which writes the store
    has room for. *)
Record localStorage := mkLocalStorage {
  items : gmap string text;
  denied : bool;
  fits : string -> text -> bool }.

Definition getItem (ls : localStorage) (key : string) : completion exn (option text) :=
  if denied ls then Throw SecurityError else Normal (items ls !! key).

Definition setItem (ls : localStorage) (key : string) (t : text) : completion exn localStorage :=
  if denied ls then Throw SecurityError
  else if fits ls key t then Normal (mkLocalStorage (<[key := t]> (items ls)) (denied ls) (fits ls))
  else Throw QuotaExceededError.

Definition removeItem (ls : localStorage) (key : string) : completion exn localStorage :=
  if denied ls then Throw SecurityError
  else Normal (mkLocalStorage (delete key (items ls)) (denied ls) (fits ls)).

Definition JSON_parse (t : text) : completion exn Js.value :=
  match t with
  | Garbled _ => Throw SyntaxError
  | Json v => Normal v
  end.

(** The number that [JSON.parse] reads from what [JSON.stringify] writes
    for a number: NaN and the infinities are written [null], negative
    zero is written [0], and every other number is written with the
    digits that read back as the same double. *)
Definition JSON_number (n : Js.number) : Js.value :=
  match PrimFloat.classify n with
  | FloatClass.NaN | PInf | NInf => Js.Null
  | NZero => Js.Num 0%float
  | PZero | PNormal | NNormal | PSubn | NSubn => Js.Num n
  end.

(** The value that [JSON.parse] reads from what [JSON.stringify] writes
    for a value: the same value with its numbers as [JSON_number]. *)
Fixpoint JSON_value (v : Js.value) : Js.value :=
  match v with
  | Js.Null | Js.Bool _ | Js.Str _ => v
  | Js.Num n => JSON_number n
  | Js.Arr items => Js.Arr (map JSON_value items)
  | Js.Obj fields => Js.Obj (map (fun field => (fst field, JSON_value (snd field))) fields)
  end.

Definition JSON_stringify (v : Js.value) : text := Json (JSON_value v).

(** A value that [JSON.stringify] writes so that it is read back as it
    was: none of its numbers is NaN, an infinity or negative zero. *)
Definition writable_number (n : Js.number) : bool :=
  match PrimFloat.classify n with
  | FloatClass.NaN | PInf | NInf | NZero => false
  | PZero | PNormal | NNormal | PSubn | NSubn => true
  end.

Fixpoint writable (v : Js.value) : bool :=
  match v with
  | Js.Null | Js.Bool _ | Js.Str _ => true
  | Js.Num n => writable_number n
  | Js.Arr items => forallb writable items
  | Js.Obj fields => forallb (fun field => writable (snd field)) fields
  end.

Definition STORAGE_PREFIX : string := "weather-app:".

(** Reads a value, [null] if unavailable or unparseable. *)
Definition getStorageItem (ls : localStorage) (key : string) : completion exn Js.value :=
  try_catch
    (raw <~ getItem ls (STORAGE_PREFIX +:+ key);;
     match raw with
     | None => Normal Js.Null
     | Some t => JSON_parse t
     end)
    (fun _ => Normal Js.Null).

(** Writes a value as JSON; a failing write is ignored. *)
Definition setStorageItem (ls : localStorage) (key : string) (v : Js.value) : completion exn localStorage :=
  try_catch
    (setItem ls (STORAGE_PREFIX +:+ key) (JSON_stringify v))
    (fun _ => Normal ls).

Definition removeStorageItem (ls : localStorage) (key : string) : completion exn localStorage :=
  try_catch
    (removeItem ls (STORAGE_PREFIX +:+ key))
    (fun _ => Normal ls).

End Storage.

(* ================================================================== *)
(** * services/weatherService.ts *)
(* ================================================================== *)

(** An [Error] object, as far as the program reads it. *)
Module Error.
Record t := mk { message : string }.
End Error.

(** [error.response] of an [AxiosError]: the status and
    [data?.error?.message]. *)
Module AxiosResponse.
Record t := mk { status : nat; error_message : option string }.
End AxiosResponse.

Module AxiosError.
Record t := mk {
  response : option AxiosResponse.t;
  code : option string;
  message : string }.
End AxiosError.

(** What [axios.get] or the code after it throws: an [AxiosError], or
    anything else, given by [String(error)]. *)
Inductive thrown : Type :=
| IsAxiosError (e : AxiosError.t)
| NotAxiosError (as_string : string).

Module Request.
Record t := mk { url : string; params : list (string * Js.value) }.
End Request.

(** [axios.get<T>], one field per payload type. *)
Module Axios.
Record t := mk {
  get_weather : Request.t -> completion thrown WeatherApiResponse.t;
  get_locations : Request.t -> completion thrown (list ApiLocation.t) }.
End Axios.

Module WeatherService.

Record t := mk { apiKey : string; baseUrl : string }.

Definition API_BASE_URL : string := "https://api.weatherapi.com/v1".

(** Transforms the raw response into [WeatherData]. *)
Definition transformWeatherResponse (data : WeatherApiResponse.t) : WeatherData.t :=
  let forecast :=
    map (fun day =>
           DayForecast.mk
             (ApiForecastDay.date day)
             (ApiDay.maxtemp_c (ApiForecastDay.day day))
             (ApiDay.mintemp_c (ApiForecastDay.day day))
             (ApiCondition.text (ApiDay.condition (ApiForecastDay.day day)))
             (ApiCondition.text (ApiDay.condition (ApiForecastDay.day day)))
             (ApiCondition.icon (ApiDay.condition (ApiForecastDay.day day)))
             (ApiDay.avghumidity (ApiForecastDay.day day))
             (ApiDay.maxwind_kph (ApiForecastDay.day day)))
        (match WeatherApiResponse.forecast data with
         | Some f => match ApiForecast.forecastday f with Some days => days | None => [] end
         | None => []
         end) in
  WeatherData.mk
    (WeatherLocation.mk
       (ApiLocation.name (WeatherApiResponse.location data))
       (ApiLocation.country (WeatherApiResponse.location data))
       (ApiLocation.lat (WeatherApiResponse.location data))
       (ApiLocation.lon (WeatherApiResponse.location data)))
    (CurrentConditions.mk
       (ApiCurrent.temp_c (WeatherApiResponse.current data))
       (ApiCondition.text (ApiCurrent.condition (WeatherApiResponse.current data)))
       (ApiCondition.text (ApiCurrent.condition (WeatherApiResponse.current data)))
       (ApiCurrent.humidity (WeatherApiResponse.current data))
       (ApiCurrent.wind_kph (WeatherApiResponse.current data))
       (ApiCurrent.pressure_mb (WeatherApiResponse.current data))
       (ApiCurrent.vis_km (WeatherApiResponse.current data))
       (ApiCurrent.uv (WeatherApiResponse.current data))
       (ApiCondition.icon (ApiCurrent.condition (WeatherApiResponse.current data))))
    forecast.

(** [a || b] on an optional string: [b] when [a] is [undefined] or empty. *)
Definition or_else (a : option string) (b : string) : string :=
  match a with
  | Some s => if String.eqb s "" then b else s
  | None => b
  end.

(** Turns whatever was thrown into an [Error] with a descriptive message. *)
Definition handleApiError (error : thrown) (context : string) : Error.t :=
  match error with
  | IsAxiosError e =>
      match AxiosError.response e with
      | Some r =>
          let status := AxiosResponse.status r in
          let message := or_else (AxiosResponse.error_message r) (AxiosError.message e) in
          if (status =? 400)%nat then
            Error.mk (context +:+ ": Invalid request — " +:+ message)
          else if ((status =? 401) || (status =? 403))%nat then
            Error.mk (context +:+ ": Authentication failed — check your API key")
          else if (status =? 404)%nat then
            Error.mk (context +:+ ": Location not found")
          else
            Error.mk (context +:+ ": API error (" +:+ pretty status +:+ ") — " +:+ message)
      | None =>
          if bool_decide (AxiosError.code e = Some "ECONNABORTED") then
            Error.mk (context +:+ ": Request timed out")
          else
            Error.mk (context +:+ ": Network error — " +:+ AxiosError.message e)
      end
  | NotAxiosError s =>
      Error.mk (context +:+ ": Unexpected error — " +:+ s)
  end.

(** The request of [getCurrentWeather] and [getForecast]: the URL and the
    [params] object. *)
Definition forecast_request (svc : t) (city : string) (days : Js.number) : Request.t :=
  Request.mk (baseUrl svc +:+ "/forecast.json")
    [("key", Js.Str (apiKey svc)); ("q", Js.Str city);
     ("days", Js.Num days); ("aqi", Js.Str "no")].

(** The request of [searchLocations]. *)
Definition search_request (svc : t) (query : string) : Request.t :=
  Request.mk (baseUrl svc +:+ "/search.json")
    [("key", Js.Str (apiKey svc)); ("q", Js.Str query)].

Definition getCurrentWeather (svc : t) (axios : Axios.t) (city : string)
  : completion Error.t WeatherData.t :=
  try_catch
    (response <~ Axios.get_weather axios (forecast_request svc city 1%float);;
     Normal (transformWeatherResponse response))
    (fun error =>
       Throw (handleApiError error
                ("Failed to fetch current weather for " +:+ Js.dq +:+ city +:+ Js.dq))).

Definition getForecast (svc : t) (axios : Axios.t) (city : string) (days : Js.number)
  : completion Error.t WeatherData.t :=
  try_catch
    (response <~ Axios.get_weather axios (forecast_request svc city days);;
     Normal (transformWeatherResponse response))
    (fun error =>
       Throw (handleApiError error
                ("Failed to fetch forecast for " +:+ Js.dq +:+ city +:+ Js.dq))).

Definition searchLocations (svc : t) (axios : Axios.t) (query : string)
  : completion Error.t (list LocationSuggestion.t) :=
  try_catch
    (response <~ Axios.get_locations axios (search_request svc query);;
     Normal (map (fun item =>
                    LocationSuggestion.mk
                      (ApiLocation.name item)
                      (ApiLocation.country item)
                      (ApiLocation.region item)
                      (ApiLocation.lat item)
                      (ApiLocation.lon item))
                 response))
    (fun error =>
       Throw (handleApiError error
                ("Failed to search locations for " +:+ Js.dq +:+ query +:+ Js.dq))).

End WeatherService.

(* ================================================================== *)
(** * state/AppState.ts *)
(* ================================================================== *)

Module AppState.

Definition STORAGE_KEY_LOCATION : string := "lastLocation".
Definition STORAGE_KEY_UNIT : string := "temperatureUnit".

(** A subscriber is a function object; the [Set] holds it by identity. *)
Definition Subscriber : Set := nat.

(** The fields of the class.  [currentLocation] is [LocationSuggestion |
    null]; what [loadFromStorage] puts there is a parsed value cast to that
    type, so the field holds a value, [Js.Null] for [null].  [subscribers]
    is the entry list of the [Set], in insertion order: [delete] leaves a
    hole in place of the entry, [add] appends, and an iterator is an index
    into the list. *)
Record t := mk {
  currentLocation : Js.value;
  weatherData : option WeatherData.t;
  isLoading : bool;
  error : option string;
  temperatureUnit : TemperatureUnit;
  subscribers : list (option Subscriber) }.

Definition new : t := mk Js.Null None false None C [].

Definition Set_add (callback : Subscriber) (entries : list (option Subscriber)) : list (option Subscriber) :=
  if bool_decide (Some callback ∈ entries) then entries else entries ++ [Some callback].

Definition Set_delete (callback : Subscriber) (entries : list (option Subscriber)) : list (option Subscriber) :=
  map (fun e => if bool_decide (e = Some callback) then None else e) entries.

(** The first entry that is not a hole, looking from index [i] on. *)
Fixpoint first_entry (entries : list (option Subscriber)) (i : nat) : option (nat * Subscriber) :=
  match entries with
  | [] => None
  | Some callback :: _ => Some (i, callback)
  | None :: rest => first_entry rest (S i)
  end.

Definition Set_next (entries : list (option Subscriber)) (i : nat) : option (nat * Subscriber) :=
  first_entry (drop i entries) i.

(** The state object in its surroundings: the browser's store, the
    [for ... of] loops of the calls of [notify] that are under way
    (innermost first, each at its iterator's index and inside the callback
    it invoked last), and the callbacks invoked so far, newest first. *)
Record world := mkWorld {
  state : t;
  storage : Storage.localStorage;
  loops : list nat;
  invoked : list Subscriber }.

Definition boot (ls : Storage.localStorage) : world := mkWorld new ls [] [].

(** One turn of the innermost loop of [notify]: invoke the next callback
    of the set, or leave the loop when the iterator is exhausted. *)
Definition next_iteration (w : world) : world :=
  match loops w with
  | [] => w
  | i :: outer =>
      match Set_next (subscribers (state w)) i with
      | Some (j, callback) => mkWorld (state w) (storage w) (S j :: outer) (callback :: invoked w)
      | None => mkWorld (state w) (storage w) outer (invoked w)
      end
  end.

(** [notify] enters its loop.  The body of a callback is not part of the
    class: what a callback does arrives as further calls, and its end
    (by [return] or by an exception, which the loop catches and drops) as
    [next_iteration]. *)
Definition notify (w : world) : world :=
  next_iteration (mkWorld (state w) (storage w) (0 :: loops w) (invoked w)).

Definition setLocation (location : Js.value) (w : world) : world :=
  let s := state w in
  notify (mkWorld (mk location (weatherData s) (isLoading s) None (temperatureUnit s) (subscribers s))
            (storage w) (loops w) (invoked w)).

Definition setWeatherData (data : WeatherData.t) (w : world) : world :=
  let s := state w in
  notify (mkWorld (mk (currentLocation s) (Some data) (isLoading s) None (temperatureUnit s) (subscribers s))
            (storage w) (loops w) (invoked w)).

Definition setLoading (loading : bool) (w : world) : world :=
  let s := state w in
  notify (mkWorld (mk (currentLocation s) (weatherData s) loading
                     (if loading then None else error s) (temperatureUnit s) (subscribers s))
            (storage w) (loops w) (invoked w)).

Definition setError (error : option string) (w : world) : world :=
  let s := state w in
  notify (mkWorld (mk (currentLocation s) (weatherData s) false error (temperatureUnit s) (subscribers s))
            (storage w) (loops w) (invoked w)).

Definition setTemperatureUnit (unit : TemperatureUnit) (w : world) : world :=
  let s := state w in
  notify (mkWorld (mk (currentLocation s) (weatherData s) (isLoading s) (error s) unit (subscribers s))
            (storage w) (loops w) (invoked w)).

(** [subscribe] adds the callback; the function it returns is
    [unsubscribe callback]. *)
Definition subscribe (callback : Subscriber) (w : world) : world :=
  let s := state w in
  mkWorld (mk (currentLocation s) (weatherData s) (isLoading s) (error s) (temperatureUnit s)
             (Set_add callback (subscribers s)))
    (storage w) (loops w) (invoked w).

Definition unsubscribe (callback : Subscriber) (w : world) : world :=
  let s := state w in
  mkWorld (mk (currentLocation s) (weatherData s) (isLoading s) (error s) (temperatureUnit s)
             (Set_delete callback (subscribers s)))
    (storage w) (loops w) (invoked w).

Definition unit_value (u : TemperatureUnit) : Js.value :=
  match u with
  | C => Js.Str "C"
  | F => Js.Str "F"
  end.

Definition saveToStorage (w : world) : completion Storage.exn world :=
  ls1 <~ (if Js.truthy (currentLocation (state w))
          then Storage.setStorageItem (storage w) STORAGE_KEY_LOCATION (currentLocation (state w))
          else Normal (storage w));;
  ls2 <~ Storage.setStorageItem ls1 STORAGE_KEY_UNIT (unit_value (temperatureUnit (state w)));;
  Normal (mkWorld (state w) ls2 (loops w) (invoked w)).

Definition loadFromStorage (w : world) : completion Storage.exn world :=
  let s := state w in
  savedLocation <~ Storage.getStorageItem (storage w) STORAGE_KEY_LOCATION;;
  let location :=
    if Js.truthy savedLocation
       && Js.truthy_opt (Js.prop savedLocation "name")
       && Js.truthy_opt (Js.prop savedLocation "country")
    then savedLocation else currentLocation s in
  savedUnit <~ Storage.getStorageItem (storage w) STORAGE_KEY_UNIT;;
  let unit :=
    match savedUnit with
    | Js.Str u => if String.eqb u "C" then C else if String.eqb u "F" then F else temperatureUnit s
    | _ => temperatureUnit s
    end in
  Normal (notify (mkWorld (mk location (weatherData s) (isLoading s) (error s) unit (subscribers s))
                    (storage w) (loops w) (invoked w))).

(** What happens to the state object: a call of one of its methods, from
    the top level or from inside a running callback, or the end of the
    running callback. *)
Inductive action : Type :=
| SetLocation (location : Js.value)
| SetWeatherData (data : WeatherData.t)
| SetLoading (loading : bool)
| SetError (error : option string)
| SetTemperatureUnit (unit : TemperatureUnit)
| Subscribe (callback : Subscriber)
| Unsubscribe (callback : Subscriber)
| SaveToStorage
| LoadFromStorage
| CallbackReturns
| CallbackThrows.

(** [None]: the action cannot happen (no callback is running), or an
    exception leaves the method. *)
Definition step (a : action) (w : world) : option world :=
  match a with
  | SetLocation location => Some (setLocation location w)
  | SetWeatherData data => Some (setWeatherData data w)
  | SetLoading loading => Some (setLoading loading w)
  | SetError error => Some (setError error w)
  | SetTemperatureUnit unit => Some (setTemperatureUnit unit w)
  | Subscribe callback => Some (subscribe callback w)
  | Unsubscribe callback => Some (unsubscribe callback w)
  | SaveToStorage => match saveToStorage w with Normal w' => Some w' | Throw _ => None end
  | LoadFromStorage => match loadFromStorage w with Normal w' => Some w' | Throw _ => None end
  | CallbackReturns | CallbackThrows =>
      match loops w with
      | [] => None
      | _ :: _ => Some (next_iteration w)
      end
  end.

Fixpoint run (actions : list action) (w : world) : option world :=
  match actions with
  | [] => Some w
  | a :: rest =>
      match step a w with
      | Some w' => run rest w'
      | None => None
      end
  end.

End AppState.

(* ================================================================== *)
(** * components/CurrentWeather.ts *)
(* ================================================================== *)

Module CurrentWeather.

(** The content of the container: as the page layout leaves it, or one of
    the three templates with the values interpolated into it. *)
Inductive markup : Type :=
| Blank
| Weather (temp : Js.rounded) (unit : TemperatureUnit)
    (location : WeatherLocation.t) (current : CurrentConditions.t)
| Skeleton
| ErrorMessage (message : string).

Record t := mk {
  container : markup;
  unit : TemperatureUnit;
  currentData : option WeatherData.t }.

Definition new : t := mk Blank C None.

Definition formatTemp (this : t) (celsius : Js.number) : Js.rounded :=
  match unit this with
  | F => Js.Math_round (celsius * 9 / 5 + 32)%float
  | C => Js.Math_round celsius
  end.

Definition render (data : WeatherData.t) (this : t) : t :=
  let this := mk (container this) (unit this) (Some data) in
  let temp := formatTemp this (CurrentConditions.temperature (WeatherData.current data)) in
  mk (Weather temp (unit this) (WeatherData.location data) (WeatherData.current data))
    (unit this) (currentData this).

Definition showLoading (this : t) : t :=
  mk Skeleton (unit this) (currentData this).

Definition showError (message : string) (this : t) : t :=
  mk (ErrorMessage message) (unit this) (currentData this).

Definition toggleTemperatureUnit (this : t) : t :=
  let this := mk (container this) (match unit this with C => F | F => C end) (currentData this) in
  match currentData this with
  | Some data => render data this
  | None => this
  end.

Definition getCurrentUnit (this : t) : TemperatureUnit := unit this.

End CurrentWeather.

(* ================================================================== *)
(** * components/WeatherForecast.ts *)
(* ================================================================== *)

Module WeatherForecast.

Inductive dayName : Set :=
| Today
| Weekday (date : string).

(** One day card: what [renderCard] interpolates. *)
Record card := mkCard {
  index : nat;
  day : dayName;
  dateStr : string;
  icon : string;
  condition : string;
  high : Js.rounded;
  low : Js.rounded;
  unitLabel : TemperatureUnit;
  humidity : Js.number;
  wind : Js.rounded }.

Inductive markup : Type :=
| Blank
| NoData
| Cards (cards : list card)
| Skeleton.

Record t := mk {
  container : markup;
  currentUnit : TemperatureUnit;
  currentForecast : list DayForecast.t }.

Definition new : t := mk Blank C [].

Definition convertTemp (this : t) (tempC : Js.number) : Js.number :=
  match currentUnit this with
  | F => ((tempC * 9) / 5 + 32)%float
  | C => tempC
  end.

Definition renderCard (this : t) (index : nat) (day : DayForecast.t) : card :=
  let dayName := match index with O => Today | S _ => Weekday (DayForecast.date day) end in
  let maxTemp := convertTemp this (DayForecast.maxTemp day) in
  let minTemp := convertTemp this (DayForecast.minTemp day) in
  mkCard index dayName (DayForecast.date day) (DayForecast.icon day) (DayForecast.condition day)
    (Js.Math_round maxTemp) (Js.Math_round minTemp) (currentUnit this)
    (DayForecast.humidity day) (Js.Math_round (DayForecast.windSpeed day)).

Definition render (forecast : list DayForecast.t) (unit : TemperatureUnit) (this : t) : t :=
  let this := mk (container this) unit forecast in
  match forecast with
  | [] => mk NoData (currentUnit this) (currentForecast this)
  | _ :: _ => mk (Cards (imap (renderCard this) forecast)) (currentUnit this) (currentForecast this)
  end.

Definition showLoading (this : t) : t :=
  mk Skeleton (currentUnit this) (currentForecast this).

End WeatherForecast.

(* ================================================================== *)
(** * components/LocationSearch.ts *)
(* ================================================================== *)

Module LocationSearch.

(** The content of the dropdown element. *)
Inductive dropdown : Type :=
| NoContent
| Searching
| NoLocations
| SuggestionButtons (suggestions : list LocationSuggestion.t)
| ErrorText (message : string).

(** The component: its input element, its dropdown, its fields, and the
    [locationSelected] events it has dispatched, newest first. *)
Record t := mk {
  inputValue : string;
  inputDisabled : bool;
  dropdownEl : dropdown;
  dropdownHidden : bool;
  suggestions : list LocationSuggestion.t;
  isLoading : bool;
  dispatched : list LocationSuggestion.t }.

(** After [render]. *)
Definition new : t := mk "" false NoContent true [] false [].

Definition showDropdown (this : t) : t :=
  mk (inputValue this) (inputDisabled this) (dropdownEl this) false
    (suggestions this) (isLoading this) (dispatched this).

Definition hideDropdown (this : t) : t :=
  mk (inputValue this) (inputDisabled this) (dropdownEl this) true
    (suggestions this) (isLoading this) (dispatched this).

Definition set_dropdown (d : dropdown) (this : t) : t :=
  mk (inputValue this) (inputDisabled this) d (dropdownHidden this)
    (suggestions this) (isLoading this) (dispatched this).

Definition set_input (value : string) (disabled : bool) (this : t) : t :=
  mk value disabled (dropdownEl this) (dropdownHidden this)
    (suggestions this) (isLoading this) (dispatched this).

Definition set_isLoading (b : bool) (this : t) : t :=
  mk (inputValue this) (inputDisabled this) (dropdownEl this) (dropdownHidden this)
    (suggestions this) b (dispatched this).

Definition set_suggestions (l : list LocationSuggestion.t) (this : t) : t :=
  mk (inputValue this) (inputDisabled this) (dropdownEl this) (dropdownHidden this)
    l (isLoading this) (dispatched this).

Definition renderDropdown (this : t) : t :=
  if isLoading this then showDropdown (set_dropdown Searching this)
  else match suggestions this with
       | [] => showDropdown (set_dropdown NoLocations this)
       | _ :: _ => showDropdown (set_dropdown (SuggestionButtons (suggestions this)) this)
       end.

Definition renderDropdownError (message : string) (this : t) : t :=
  showDropdown (set_dropdown (ErrorText message) this).

Definition emitLocationSelected (location : LocationSuggestion.t) (this : t) : t :=
  mk (inputValue this) (inputDisabled this) (dropdownEl this) (dropdownHidden this)
    (suggestions this) (isLoading this) (location :: dispatched this).

Definition searchLocations (svc : WeatherService.t) (axios : Axios.t) (query : string) (this : t) : t :=
  let this := renderDropdown (set_isLoading true this) in
  match WeatherService.searchLocations svc axios query with
  | Normal found => renderDropdown (set_isLoading false (set_suggestions found this))
  | Throw _ =>
      renderDropdownError "Failed to search locations. Please try again."
        (set_suggestions [] (set_isLoading false this))
  end.

(** [navigator.geolocation.getCurrentPosition] rejects with one of these. *)
Inductive GeolocationPositionError : Set :=
| PERMISSION_DENIED
| POSITION_UNAVAILABLE
| TIMEOUT.

Module GeolocationCoordinates.
Record t := mk { latitude : Js.number; longitude : Js.number }.
End GeolocationCoordinates.

(** The device: [None] when [navigator.geolocation] is missing, else what
    the one position request (10 s timeout, low accuracy) settles to. *)
Definition geolocation : Type :=
  option (completion GeolocationPositionError GeolocationCoordinates.t).

(** An awaited promise inside [try]: a rejection is thrown where the
    component stands. *)
Definition await {E A} (this : t) (p : completion E A) : completion t A :=
  match p with
  | Normal a => Normal a
  | Throw _ => Throw this
  end.

Section handleGeolocation.

(** The language's conversion of a number to a string, as a template
    literal applies it. *)
Variable Number_toString : Js.number -> string.

Definition handleGeolocation (navigator_geolocation : geolocation)
    (svc : WeatherService.t) (axios : Axios.t) (this : t) : t :=
  match navigator_geolocation with
  | None => renderDropdownError "Geolocation is not supported by your browser." this
  | Some getCurrentPosition =>
      let this := set_isLoading true this in
      let this := set_input "Detecting location..." true this in
      let settled :=
        try_catch
          (position <~ await this getCurrentPosition;;
           results <~ await this
             (WeatherService.searchLocations svc axios
                (Number_toString (GeolocationCoordinates.latitude position) +:+ "," +:+
                 Number_toString (GeolocationCoordinates.longitude position)));;
           let this := set_input (inputValue this) false this in
           match results with
           | location :: _ =>
               let this :=
                 set_input (LocationSuggestion.name location +:+ ", " +:+
                            LocationSuggestion.country location) (inputDisabled this) this in
               Normal (emitLocationSelected location this)
           | [] => Normal (renderDropdownError "Could not determine your location." this)
           end)
          (fun this =>
             let this := set_input (inputValue this) false this in
             let this := set_input "" (inputDisabled this) this in
             Normal (E:=Empty_set)
               (renderDropdownError "Unable to get your location. Please check permissions." this)) in
      match settled with
      | Normal this => set_isLoading false this
      | Throw e => match e with end
      end
  end.

End handleGeolocation.

End LocationSearch.

(* ================================================================== *)
(** * App.ts *)
(* ================================================================== *)

Module App.

(** The controller with what it owns: the state object in its
    surroundings, the three components, the status banner (text and
    whether it is hidden) and the lines written to the console. *)
Record t := mk {
  weatherService : WeatherService.t;
  state : AppState.world;
  locationSearch : LocationSearch.t;
  currentWeather : CurrentWeather.t;
  weatherForecast : WeatherForecast.t;
  status : string * bool;
  console : list string }.

(** After the constructor, [renderLayout] and [initComponents]. *)
Definition new (svc : WeatherService.t) (ls : Storage.localStorage) : t :=
  mk svc (AppState.boot ls) LocationSearch.new CurrentWeather.new WeatherForecast.new ("", true) [].

(** The callback of [setupStateSubscription],
    [(_state) => { this.state.saveToStorage(); }]. *)
Definition stateSubscriber : AppState.Subscriber := 0.

Definition with_state (w : AppState.world) (this : t) : t :=
  mk (weatherService this) w (locationSearch this) (currentWeather this)
    (weatherForecast this) (status this) (console this).

Definition setupStateSubscription (this : t) : t :=
  with_state (AppState.subscribe stateSubscriber (state this)) this.

(** A call of a notifying method of the state by the controller, the only
    subscriber being [stateSubscriber]: the method, then the body of the
    callback that [notify] invokes, then the callback's return. *)
Definition call (a : AppState.action) (w : AppState.world) : option AppState.world :=
  AppState.run [a; AppState.SaveToStorage; AppState.CallbackReturns] w.

Definition handleError (error : Error.t) (this : t) : option t :=
  let message := Error.message error in
  w ← call (AppState.SetError (Some message)) (state this);
  Some (mk (weatherService this) w (locationSearch this)
          (CurrentWeather.showError message (currentWeather this))
          (weatherForecast this) (status this)
          (("[WeatherApp] " +:+ message) :: console this)).

(** [loadWeatherForLocation] up to its [await]. *)
Definition loadWeatherForLocation_start (location : LocationSuggestion.t) (this : t) : option t :=
  w ← call (AppState.SetLocation (LocationSuggestion.to_value location)) (state this);
  w ← call (AppState.SetLoading true) w;
  Some (mk (weatherService this) w (locationSearch this)
          (CurrentWeather.showLoading (currentWeather this))
          (WeatherForecast.showLoading (weatherForecast this))
          (status this) (console this)).

(** [loadWeatherForLocation] from the moment the awaited fetch settles. *)
Definition loadWeatherForLocation_settle (fetched : completion Error.t WeatherData.t) (this : t) : option t :=
  match fetched with
  | Normal data =>
      w ← call (AppState.SetWeatherData data) (state this);
      w ← call (AppState.SetLoading false) w;
      w ← AppState.step AppState.SaveToStorage w;
      Some (mk (weatherService this) w (locationSearch this)
              (CurrentWeather.render data (currentWeather this))
              (WeatherForecast.render (WeatherData.forecast data)
                 (AppState.temperatureUnit (AppState.state w)) (weatherForecast this))
              (status this) (console this))
  | Throw error => handleError error this
  end.

(** The whole function, nothing else running while the fetch is awaited. *)
Definition loadWeatherForLocation (axios : Axios.t) (location : LocationSuggestion.t) (this : t) : option t :=
  this ← loadWeatherForLocation_start location this;
  loadWeatherForLocation_settle
    (WeatherService.getForecast (weatherService this) axios (LocationSuggestion.name location) 5%float)
    this.

End App.

(* ================================================================== *)
(** * components/WeatherForecast.ts: the card listeners *)
(* ================================================================== *)

(** The [click] listener that [attachEventListeners] puts on the day
    cards: the detail of the [daySelected] event it dispatches,
    [this.currentForecast[index]] ([None] for [undefined]) and the index.
    [None] when the container has no card of that index. *)
Module WeatherForecastEvents.

Definition clickCard (index : nat) (this : WeatherForecast.t)
  : option (option DayForecast.t * nat) :=
  match WeatherForecast.container this with
  | WeatherForecast.Cards cards =>
      if bool_decide (index < length cards)
      then Some (WeatherForecast.currentForecast this !! index, index)
      else None
  | _ => None
  end.

(** What the controller does to the panel. *)
Inductive operation : Type :=
| Render (forecast : list DayForecast.t) (unit : TemperatureUnit)
| ShowLoading.

Definition perform (this : WeatherForecast.t) (op : operation) : WeatherForecast.t :=
  match op with
  | Render forecast unit => WeatherForecast.render forecast unit this
  | ShowLoading => WeatherForecast.showLoading this
  end.

End WeatherForecastEvents.

(* ================================================================== *)
(** * components/LocationSearch.ts: the event listeners *)
(* ================================================================== *)

Module SearchBox.

Import LocationSearch.

(** The component with the timeouts it has scheduled: [debounceTimer],
    the identifier [setTimeout] returned last ([None] for [null]; the
    identifiers of the browser are positive, hence truthy); the timeouts
    that are pending, each with the query its callback will search; the
    next identifier of the browser. *)
Record t := mk {
  search : LocationSearch.t;
  debounceTimer : option nat;
  timeouts : gmap nat string;
  next_timeout : nat }.

Definition new : t := mk LocationSearch.new None ∅ 1.

Definition with_search (s : LocationSearch.t) (this : t) : t :=
  mk s (debounceTimer this) (timeouts this) (next_timeout this).

Definition clearTimeout (id : nat) (this : t) : t :=
  mk (search this) (debounceTimer this) (delete id (timeouts this)) (next_timeout this).

Definition handleFocus (this : LocationSearch.t) : LocationSearch.t :=
  match suggestions this with
  | [] => this
  | _ :: _ => showDropdown this
  end.

(** [inside]: the container contains the target of the click. *)
Definition handleClickOutside (inside : bool) (this : LocationSearch.t) : LocationSearch.t :=
  if inside then this else hideDropdown this.

(** The [click] listener of the suggestion button [index]; reading a
    property of [this.suggestions[index]] throws when there is no such
    suggestion. *)
Definition clickSuggestion (index : nat) (this : LocationSearch.t)
  : completion unit LocationSearch.t :=
  match suggestions this !! index with
  | Some location =>
      let this :=
        set_input (LocationSuggestion.name location +:+ ", " +:+
                   LocationSuggestion.country location) (inputDisabled this) this in
      let this := hideDropdown this in
      Normal (emitLocationSelected location this)
  | None => Throw ()
  end.

Section listeners.

(** [String.prototype.trim] and the [length] of a string, in the units
    of the language. *)
Variable String_trim : string -> string.
Variable String_length : string -> nat.
Variable Number_toString : Js.number -> string.

Definition handleInput (this : t) : t :=
  let query := String_trim (inputValue (search this)) in
  let this :=
    match debounceTimer this with
    | Some id => clearTimeout id this
    | None => this
    end in
  if (String_length query <? 2)%nat then with_search (hideDropdown (search this)) this
  else
    mk (search this) (Some (next_timeout this))
      (<[next_timeout this := query]> (timeouts this)) (S (next_timeout this)).

(** What happens to the component. *)
Inductive event : Type :=
| Typing (value : string)
| TimeoutFires (id : nat)
| Focus
| Click (inside : bool)
| ClickSuggestion (index : nat)
| Geolocate (device : geolocation).

(** The listeners.  A timeout that fires runs [searchLocations] with its
    query, if it is still pending.  A click on a suggestion needs the
    button in the dropdown; an exception of its listener leaves the
    component as it was. *)
Definition handle (svc : WeatherService.t) (axios : Axios.t) (e : event) (this : t) : t :=
  match e with
  | Typing value =>
      handleInput (with_search (set_input value (inputDisabled (search this)) (search this)) this)
  | TimeoutFires id =>
      match timeouts this !! id with
      | Some query =>
          mk (LocationSearch.searchLocations svc axios query (search this))
            (debounceTimer this) (delete id (timeouts this)) (next_timeout this)
      | None => this
      end
  | Focus => with_search (handleFocus (search this)) this
  | Click inside => with_search (handleClickOutside inside (search this)) this
  | ClickSuggestion index =>
      match dropdownEl (search this) with
      | SuggestionButtons buttons =>
          if bool_decide (index < length buttons) then
            match clickSuggestion index (search this) with
            | Normal s => with_search s this
            | Throw _ => this
            end
          else this
      | _ => this
      end
  | Geolocate device =>
      with_search (handleGeolocation Number_toString device svc axios (search this)) this
  end.

End listeners.

End SearchBox.

(* ================================================================== *)
(** * App.ts: the other flows *)
(* ================================================================== *)

Module AppFlows.


(** [toggleTemperatureUnit] of the controller. *)
Definition toggleTemperatureUnit (this : App.t) : option App.t :=
  let newUnit :=
    match AppState.temperatureUnit (AppState.state (App.state this)) with
    | C => F
    | F => C
    end in
  w ← App.call (AppState.SetTemperatureUnit newUnit) (App.state this);
  w ← AppState.step AppState.SaveToStorage w;
  Some (App.mk (App.weatherService this) w (App.locationSearch this)
          (CurrentWeather.toggleTemperatureUnit (App.currentWeather this))
          (match AppState.weatherData (AppState.state w) with
           | Some data =>
               WeatherForecast.render (WeatherData.forecast data) newUnit (App.weatherForecast this)
           | None => App.weatherForecast this
           end)
          (App.status this) (App.console this)).




(** [this.state.loadFromStorage()] in [init], the subscription set up. *)
Definition restore (this : App.t) : option App.t :=
  w ← App.call AppState.LoadFromStorage (App.state this);
  Some (App.with_state w this).

End AppFlows.

(* ================================================================== *)
(** * Properties of the weather client *)
(* ================================================================== *)

Section WeatherClient.

Local Open Scope string_scope.

Lemma append_assoc (a b c : string) : (a +:+ b) +:+ c = a +:+ b +:+ c.
Proof.
  induction a as [|x a IH]; [reflexivity|].
  change (String x ((a +:+ b) +:+ c) = String x (a +:+ b +:+ c)).
  by rewrite IH.
Qed.

(** The forecast days the provider returned. *)
Definition provider_days (data : WeatherApiResponse.t) : list ApiForecastDay.t :=
  match WeatherApiResponse.forecast data with
  | Some f => default [] (ApiForecast.forecastday f)
  | None => []
  end.

Lemma transform_forecast (data : WeatherApiResponse.t) (i : nat) :
  WeatherData.forecast (WeatherService.transformWeatherResponse data) !! i =
  (fun d =>
     DayForecast.mk (ApiForecastDay.date d)
       (ApiDay.maxtemp_c (ApiForecastDay.day d)) (ApiDay.mintemp_c (ApiForecastDay.day d))
       (ApiCondition.text (ApiDay.condition (ApiForecastDay.day d)))
       (ApiCondition.text (ApiDay.condition (ApiForecastDay.day d)))
       (ApiCondition.icon (ApiDay.condition (ApiForecastDay.day d)))
       (ApiDay.avghumidity (ApiForecastDay.day d)) (ApiDay.maxwind_kph (ApiForecastDay.day d)))
  <$> provider_days data !! i.
Proof.
  unfold WeatherService.transformWeatherResponse, provider_days; cbn.
  destruct (WeatherApiResponse.forecast data) as [[[days|]]|]; cbn;
    by rewrite ?list_lookup_fmap.
Qed.

(** C3.  The transformation copies every number of the payload as it is
    (current temperature, humidity, wind speed, pressure, visibility, UV
    index, the coordinates, and each day's maximum and minimum
    temperature, humidity and wind speed), and the forecast of the result
    has one entry per day the provider returned, the entry at each
    position made from the provider's day at that position. *)
Theorem transformWeatherResponse_preserves (data : WeatherApiResponse.t) :
  let out := WeatherService.transformWeatherResponse data in
  let cur := WeatherData.current out in
  let src := WeatherApiResponse.current data in
  CurrentConditions.temperature cur = ApiCurrent.temp_c src
  /\ CurrentConditions.humidity cur = ApiCurrent.humidity src
  /\ CurrentConditions.windSpeed cur = ApiCurrent.wind_kph src
  /\ CurrentConditions.pressure cur = ApiCurrent.pressure_mb src
  /\ CurrentConditions.visibility cur = ApiCurrent.vis_km src
  /\ CurrentConditions.uvIndex cur = ApiCurrent.uv src
  /\ WeatherLocation.lat (WeatherData.location out) = ApiLocation.lat (WeatherApiResponse.location data)
  /\ WeatherLocation.lon (WeatherData.location out) = ApiLocation.lon (WeatherApiResponse.location data)
  /\ length (WeatherData.forecast out) = length (provider_days data)
  /\ forall i : nat,
       DayForecast.date <$> WeatherData.forecast out !! i
         = ApiForecastDay.date <$> provider_days data !! i
       /\ DayForecast.maxTemp <$> WeatherData.forecast out !! i
         = (fun d => ApiDay.maxtemp_c (ApiForecastDay.day d)) <$> provider_days data !! i
       /\ DayForecast.minTemp <$> WeatherData.forecast out !! i
         = (fun d => ApiDay.mintemp_c (ApiForecastDay.day d)) <$> provider_days data !! i
       /\ DayForecast.humidity <$> WeatherData.forecast out !! i
         = (fun d => ApiDay.avghumidity (ApiForecastDay.day d)) <$> provider_days data !! i
       /\ DayForecast.windSpeed <$> WeatherData.forecast out !! i
         = (fun d => ApiDay.maxwind_kph (ApiForecastDay.day d)) <$> provider_days data !! i.
Proof.
  cbn zeta. repeat split; try reflexivity.
  - unfold WeatherService.transformWeatherResponse, provider_days; cbn.
    destruct (WeatherApiResponse.forecast data) as [[[days|]]|]; cbn;
      by rewrite ?length_map.
  - rewrite transform_forecast. by destruct (provider_days data !! i).
  - rewrite transform_forecast. by destruct (provider_days data !! i).
  - rewrite transform_forecast. by destruct (provider_days data !! i).
  - rewrite transform_forecast. by destruct (provider_days data !! i).
  - rewrite transform_forecast. by destruct (provider_days data !! i).
Qed.

(** The error taxonomy of the client. *)
Inductive ErrorClass : Set :=
| InvalidRequest
| AuthenticationFailure
| NotFound
| ApiError (status : nat)
| TimedOut
| NetworkFailure
| Unexpected.

(** The class of what was thrown, as the taxonomy words it: by the status
    when there is a response, as a timeout when the transport gave up
    waiting (the code [ECONNABORTED] of the HTTP library), as a network
    failure for any other error of the transport, and as unexpected for
    anything that is no error of the transport. *)
Definition classify (error : thrown) : ErrorClass :=
  match error with
  | IsAxiosError e =>
      match AxiosError.response e with
      | Some r =>
          let status := AxiosResponse.status r in
          if bool_decide (status = 400) then InvalidRequest
          else if bool_decide (status = 401 \/ status = 403) then AuthenticationFailure
          else if bool_decide (status = 404) then NotFound
          else ApiError status
      | None =>
          if bool_decide (AxiosError.code e = Some "ECONNABORTED") then TimedOut
          else NetworkFailure
      end
  | NotAxiosError _ => Unexpected
  end.

(** How a message names its class. *)
Definition label (c : ErrorClass) : string :=
  match c with
  | InvalidRequest => "Invalid request"
  | AuthenticationFailure => "Authentication failed"
  | NotFound => "Location not found"
  | ApiError status => "API error (" +:+ pretty status +:+ ")"
  | TimedOut => "Request timed out"
  | NetworkFailure => "Network error"
  | Unexpected => "Unexpected error"
  end.

Lemma handleApiError_message (error : thrown) (context : string) :
  exists detail : string,
    WeatherService.handleApiError error context
    = Error.mk (context +:+ ": " +:+ label (classify error) +:+ detail).
Proof.
  destruct error as [[[[status msg]|] code message]|text]; cbn.
  - destruct (Nat.eqb_spec status 400) as [->|H400].
    { by exists (" — " +:+ WeatherService.or_else msg message). }
    rewrite (bool_decide_eq_false_2 (status = 400)) by done.
    destruct (Nat.eqb_spec status 401) as [->|H401].
    { by exists " — check your API key". }
    destruct (Nat.eqb_spec status 403) as [->|H403].
    { by exists " — check your API key". }
    rewrite (bool_decide_eq_false_2 (status = 401 \/ status = 403)) by (intros [?|?]; congruence).
    destruct (Nat.eqb_spec status 404) as [->|H404].
    { by exists "". }
    rewrite (bool_decide_eq_false_2 (status = 404)) by done.
    exists (" — " +:+ WeatherService.or_else msg message).
    cbn. by rewrite !append_assoc.
  - case_bool_decide.
    + by exists "".
    + by exists (" — " +:+ message).
  - by exists (" — " +:+ text).
Qed.

(** C8.  When the request of an operation fails, the operation raises an
    error (it returns nothing), and the message of the error is the
    context of the operation, which names the operation and quotes the
    query, followed by the name of the class of the failure: invalid
    request for status 400, authentication failure for 401 and 403, not
    found for 404, an API error with the status for any other status, a
    timeout, a network error, or an unexpected error. *)
Theorem client_failure_classified (svc : WeatherService.t) (axios : Axios.t) (error : thrown) :
  (forall city : string,
     Axios.get_weather axios (WeatherService.forecast_request svc city 1%float) = Throw error ->
     exists detail : string,
       WeatherService.getCurrentWeather svc axios city
       = Throw (Error.mk (("Failed to fetch current weather for " +:+ Js.dq +:+ city +:+ Js.dq)
                          +:+ ": " +:+ label (classify error) +:+ detail)))
  /\ (forall (city : string) (days : Js.number),
     Axios.get_weather axios (WeatherService.forecast_request svc city days) = Throw error ->
     exists detail : string,
       WeatherService.getForecast svc axios city days
       = Throw (Error.mk (("Failed to fetch forecast for " +:+ Js.dq +:+ city +:+ Js.dq)
                          +:+ ": " +:+ label (classify error) +:+ detail)))
  /\ (forall query : string,
     Axios.get_locations axios (WeatherService.search_request svc query) = Throw error ->
     exists detail : string,
       WeatherService.searchLocations svc axios query
       = Throw (Error.mk (("Failed to search locations for " +:+ Js.dq +:+ query +:+ Js.dq)
                          +:+ ": " +:+ label (classify error) +:+ detail))).
Proof.
  split; [|split].
  - intros city H. unfold WeatherService.getCurrentWeather. rewrite H; cbn.
    destruct (handleApiError_message error
      ("Failed to fetch current weather for " +:+ Js.dq +:+ city +:+ Js.dq)) as [d ->].
    by exists d.
  - intros city days H. unfold WeatherService.getForecast. rewrite H; cbn.
    destruct (handleApiError_message error
      ("Failed to fetch forecast for " +:+ Js.dq +:+ city +:+ Js.dq)) as [d ->].
    by exists d.
  - intros query H. unfold WeatherService.searchLocations. rewrite H; cbn.
    destruct (handleApiError_message error
      ("Failed to search locations for " +:+ Js.dq +:+ query +:+ Js.dq)) as [d ->].
    by exists d.
Qed.

(** A transport on which every request fails in the same way. *)
Definition failing (error : thrown) : Axios.t :=
  Axios.mk (fun _ => Throw error) (fun _ => Throw error).

Definition demo_service : WeatherService.t :=
  WeatherService.mk "demo-key" WeatherService.API_BASE_URL.

Definition status_404 : thrown :=
  IsAxiosError (AxiosError.mk (Some (AxiosResponse.mk 404 None)) None
                  "Request failed with status code 404").

Lemma client_failure_classified_witness :
  exists detail : string,
    WeatherService.getForecast demo_service (failing status_404) "Paris" 5%float
    = Throw (Error.mk (("Failed to fetch forecast for " +:+ Js.dq +:+ "Paris" +:+ Js.dq)
                       +:+ ": " +:+ "Location not found" +:+ detail)).
Proof.
  apply (proj1 (proj2 (client_failure_classified demo_service (failing status_404) status_404))
           "Paris" 5%float).
  reflexivity.
Defined.

End WeatherClient.

(* ================================================================== *)
(** * Properties of the current-conditions panel *)
(* ================================================================== *)

Section TemperatureDisplay.

Local Open Scope float_scope.

(** C5.  A panel in Celsius that renders a snapshot of temperature [c]
    shows [Math.round c] with the label C; after one toggle it shows
    [Math.round (c * 9 / 5 + 32)] with the label F, after a second toggle
    exactly what it showed at first.  No toggle changes the snapshot the
    panel keeps.  For [c = 20] the panel shows 20, then 68. *)
Theorem toggle_temperature_display :
  (forall (data : WeatherData.t) (m : CurrentWeather.markup) (kept : option WeatherData.t),
     let c := CurrentConditions.temperature (WeatherData.current data) in
     let shown := CurrentWeather.render data (CurrentWeather.mk m C kept) in
     let toggled := CurrentWeather.toggleTemperatureUnit shown in
     let back := CurrentWeather.toggleTemperatureUnit toggled in
     CurrentWeather.container shown
       = CurrentWeather.Weather (Js.Math_round c) C
           (WeatherData.location data) (WeatherData.current data)
     /\ CurrentWeather.container toggled
       = CurrentWeather.Weather (Js.Math_round (c * 9 / 5 + 32)) F
           (WeatherData.location data) (WeatherData.current data)
     /\ back = shown
     /\ CurrentWeather.currentData toggled = Some data
     /\ CurrentWeather.currentData back = Some data)
  /\ (forall this : CurrentWeather.t,
     CurrentWeather.currentData (CurrentWeather.toggleTemperatureUnit this)
     = CurrentWeather.currentData this)
  /\ (forall (m : CurrentWeather.markup) (kept : option WeatherData.t),
     CurrentWeather.formatTemp (CurrentWeather.mk m C kept) 20 = Js.Int 20
     /\ CurrentWeather.formatTemp (CurrentWeather.mk m F kept) 20 = Js.Int 68).
Proof.
  split; [|split].
  - intros data m kept. cbn zeta. by repeat split.
  - intros [m u [d|]]; reflexivity.
  - intros m kept. split; reflexivity.
Qed.

End TemperatureDisplay.

(* ================================================================== *)
(** * Properties of the observable state *)
(* ================================================================== *)

Section ObservableState.

Import AppState.

Lemma state_next_iteration (w : world) : state (next_iteration w) = state w.
Proof.
  unfold next_iteration. destruct (loops w) as [|i outer]; [done|].
  by destruct (Set_next _ _) as [[j cb]|].
Qed.

Lemma storage_next_iteration (w : world) : storage (next_iteration w) = storage w.
Proof.
  unfold next_iteration. destruct (loops w) as [|i outer]; [done|].
  by destruct (Set_next _ _) as [[j cb]|].
Qed.

Lemma state_notify (w : world) : state (notify w) = state w.
Proof. unfold notify. by rewrite state_next_iteration. Qed.

Lemma storage_notify (w : world) : storage (notify w) = storage w.
Proof. unfold notify. by rewrite storage_next_iteration. Qed.

Lemma getStorageItem_normal (ls : Storage.localStorage) (key : string) :
  exists v : Js.value, Storage.getStorageItem ls key = Normal v.
Proof.
  unfold Storage.getStorageItem, Storage.getItem.
  destruct (Storage.denied ls); cbn; [by eexists|].
  destruct (Storage.items ls !! _) as [[raw|v]|]; cbn; by eexists.
Qed.

Lemma setStorageItem_normal (ls : Storage.localStorage) (key : string) (v : Js.value) :
  exists ls' : Storage.localStorage, Storage.setStorageItem ls key v = Normal ls'.
Proof.
  unfold Storage.setStorageItem, Storage.setItem.
  destruct (Storage.denied ls); cbn; [by eexists|].
  destruct (Storage.fits ls _ _); cbn; by eexists.
Qed.

Lemma saveToStorage_normal (w : world) :
  exists ls' : Storage.localStorage,
    saveToStorage w = Normal (mkWorld (state w) ls' (loops w) (invoked w)).
Proof.
  unfold saveToStorage.
  destruct (Js.truthy (currentLocation (state w))).
  - destruct (setStorageItem_normal (storage w) STORAGE_KEY_LOCATION (currentLocation (state w)))
      as [ls1 ->]; cbn.
    destruct (setStorageItem_normal ls1 STORAGE_KEY_UNIT (unit_value (temperatureUnit (state w))))
      as [ls2 ->]; cbn.
    by exists ls2.
  - cbn.
    destruct (setStorageItem_normal (storage w) STORAGE_KEY_UNIT
                (unit_value (temperatureUnit (state w)))) as [ls2 ->]; cbn.
    by exists ls2.
Qed.

(** The error field and the loading flag are not both set. *)
Definition exclusive (s : t) : Prop := error s = None \/ isLoading s = false.

Lemma loadFromStorage_fields (w w' : world) :
  loadFromStorage w = Normal w' ->
  isLoading (state w') = isLoading (state w)
  /\ error (state w') = error (state w)
  /\ weatherData (state w') = weatherData (state w)
  /\ subscribers (state w') = subscribers (state w)
  /\ storage w' = storage w.
Proof.
  unfold loadFromStorage.
  destruct (getStorageItem_normal (storage w) STORAGE_KEY_LOCATION) as [v1 ->].
  destruct (getStorageItem_normal (storage w) STORAGE_KEY_UNIT) as [v2 ->]. cbn [bind].
  intros [= <-]. by rewrite state_notify, storage_notify.
Qed.

Lemma step_exclusive (a : action) (w w' : world) :
  step a w = Some w' -> exclusive (state w) -> exclusive (state w').
Proof.
  unfold exclusive. destruct a; cbn [step]; intros Hstep Hw.
  - injection Hstep as <-. unfold setLocation. rewrite state_notify; cbn. by left.
  - injection Hstep as <-. unfold setWeatherData. rewrite state_notify; cbn. by left.
  - injection Hstep as <-. unfold setLoading. rewrite state_notify; cbn.
    destruct loading; [by left|by right].
  - injection Hstep as <-. unfold setError. rewrite state_notify; cbn. by right.
  - injection Hstep as <-. unfold setTemperatureUnit. by rewrite state_notify.
  - by injection Hstep as <-.
  - by injection Hstep as <-.
  - destruct (saveToStorage_normal w) as [ls' Hs]. rewrite Hs in Hstep.
    by injection Hstep as <-.
  - destruct (loadFromStorage w) as [w1|] eqn:Hl; [|done]. injection Hstep as <-.
    apply loadFromStorage_fields in Hl as (-> & -> & _). done.
  - destruct (loops w); [done|]. injection Hstep as <-. by rewrite state_next_iteration.
  - destruct (loops w); [done|]. injection Hstep as <-. by rewrite state_next_iteration.
Qed.

Lemma run_exclusive (actions : list action) (w w' : world) :
  run actions w = Some w' -> exclusive (state w) -> exclusive (state w').
Proof.
  revert w. induction actions as [|a rest IH]; cbn; intros w Hrun Hw.
  - by injection Hrun as <-.
  - destruct (step a w) as [w1|] eqn:Hstep; [|done].
    eauto using step_exclusive.
Qed.

(** C2.  In every state reached from the initial one by calls of the
    methods and the runs of the callbacks they notify, the error field and
    the loading flag are not both set; each of the five mutation methods
    keeps it so from any state where it holds; [setLoading(true)] leaves
    no error, and [setError] with a message leaves the loading flag
    cleared. *)
Theorem error_loading_exclusive :
  (forall (ls : Storage.localStorage) (actions : list action) (w : world),
     run actions (boot ls) = Some w -> exclusive (state w))
  /\ (forall (w : world) (location : Js.value) (data : WeatherData.t) (loading : bool)
        (e : option string) (unit : TemperatureUnit),
     exclusive (state w) ->
     exclusive (state (setLocation location w))
     /\ exclusive (state (setWeatherData data w))
     /\ exclusive (state (setLoading loading w))
     /\ exclusive (state (setError e w))
     /\ exclusive (state (setTemperatureUnit unit w)))
  /\ (forall w : world,
     error (state (setLoading true w)) = None
     /\ isLoading (state (setLoading true w)) = true)
  /\ (forall (w : world) (message : string),
     error (state (setError (Some message) w)) = Some message
     /\ isLoading (state (setError (Some message) w)) = false).
Proof.
  split; [|split; [|split]].
  - intros ls actions w Hrun. eapply run_exclusive; [done|]. by left.
  - intros w location data loading e unit Hw.
    repeat split.
    + by apply (step_exclusive (SetLocation location) w).
    + by apply (step_exclusive (SetWeatherData data) w).
    + by apply (step_exclusive (SetLoading loading) w).
    + by apply (step_exclusive (SetError e) w).
    + by apply (step_exclusive (SetTemperatureUnit unit) w).
  - intros w. unfold setLoading. by rewrite state_notify.
  - intros w message. unfold setError. by rewrite state_notify.
Qed.

(** C10.  [setLocation] and [setWeatherData] set their field and clear
    the error field, and leave the loading flag, the unit preference, the
    other of the two fields and the subscribers as they were. *)
Theorem setLocation_setWeatherData_clear_error (w : world) :
  (forall location : Js.value,
     let s' := state (setLocation location w) in
     currentLocation s' = location
     /\ error s' = None
     /\ isLoading s' = isLoading (state w)
     /\ temperatureUnit s' = temperatureUnit (state w)
     /\ weatherData s' = weatherData (state w)
     /\ subscribers s' = subscribers (state w))
  /\ (forall data : WeatherData.t,
     let s' := state (setWeatherData data w) in
     weatherData s' = Some data
     /\ error s' = None
     /\ isLoading s' = isLoading (state w)
     /\ temperatureUnit s' = temperatureUnit (state w)
     /\ currentLocation s' = currentLocation (state w)
     /\ subscribers s' = subscribers (state w)).
Proof.
  split; intros x; cbn zeta.
  - unfold setLocation. by rewrite state_notify.
  - unfold setWeatherData. by rewrite state_notify.
Qed.

(** ** Subscriptions *)

Lemma first_entry_elem (entries : list (option Subscriber)) (i j : nat) (callback : Subscriber) :
  first_entry entries i = Some (j, callback) -> Some callback ∈ entries.
Proof.
  revert i. induction entries as [|[c|] rest IH]; intros i H; cbn in H.
  - done.
  - injection H as _ ->. left.
  - right. eauto.
Qed.

Lemma Set_next_elem (entries : list (option Subscriber)) (i j : nat) (callback : Subscriber) :
  Set_next entries i = Some (j, callback) -> Some callback ∈ entries.
Proof.
  unfold Set_next. intros H%first_entry_elem.
  rewrite <- (take_drop i entries). apply elem_of_app. by right.
Qed.

Lemma Set_delete_absent (callback : Subscriber) (entries : list (option Subscriber)) :
  Some callback ∉ entries -> Set_delete callback entries = entries.
Proof.
  unfold Set_delete. induction entries as [|e rest IH]; intros H; cbn; [done|].
  apply not_elem_of_cons in H as [Hne Hrest].
  rewrite IH by done. case_bool_decide; congruence.
Qed.

Lemma Set_delete_gone (callback other : Subscriber) (entries : list (option Subscriber)) :
  Some callback ∉ entries -> Some callback ∉ Set_delete other entries.
Proof.
  unfold Set_delete. induction entries as [|e rest IH]; intros H; cbn; [done|].
  apply not_elem_of_cons in H as [Hne Hrest].
  apply not_elem_of_cons. split; [|by apply IH].
  case_bool_decide; congruence.
Qed.

Lemma Set_delete_self (callback : Subscriber) (entries : list (option Subscriber)) :
  Some callback ∉ Set_delete callback entries.
Proof.
  unfold Set_delete. induction entries as [|e rest IH]; cbn; [apply not_elem_of_nil|].
  apply not_elem_of_cons. split; [|done].
  case_bool_decide; congruence.
Qed.

Lemma Set_add_gone (callback other : Subscriber) (entries : list (option Subscriber)) :
  callback <> other -> Some callback ∉ entries -> Some callback ∉ Set_add other entries.
Proof.
  unfold Set_add. intros Hne H. case_bool_decide; [done|].
  rewrite elem_of_app, list_elem_of_singleton. intros [?|?]; congruence.
Qed.

(** The callback is not in the set. *)
Definition gone (callback : Subscriber) (w : world) : Prop :=
  Some callback ∉ subscribers (state w).

(** The callbacks invoked from [w] to [w'] do not include [callback]. *)
Definition not_invoked (callback : Subscriber) (w w' : world) : Prop :=
  exists new : list Subscriber, invoked w' = new ++ invoked w /\ callback ∉ new.

Lemma not_invoked_refl (callback : Subscriber) (w w' : world) :
  invoked w' = invoked w -> not_invoked callback w w'.
Proof. intros H. exists []. split; [done|]. apply not_elem_of_nil. Qed.

Lemma not_invoked_trans (callback : Subscriber) (w1 w2 w3 : world) :
  not_invoked callback w1 w2 -> not_invoked callback w2 w3 -> not_invoked callback w1 w3.
Proof.
  intros (n1 & H1 & Hn1) (n2 & H2 & Hn2). exists (n2 ++ n1). split.
  - by rewrite H2, H1, app_assoc.
  - rewrite elem_of_app. tauto.
Qed.

Lemma next_iteration_gone (callback : Subscriber) (w : world) :
  gone callback w -> not_invoked callback w (next_iteration w).
Proof.
  unfold gone, next_iteration. intros H.
  destruct (loops w) as [|i outer]; [by apply not_invoked_refl|].
  destruct (Set_next _ _) as [[j cb]|] eqn:Hnext; [|by apply not_invoked_refl].
  exists [cb]. split; [done|].
  apply Set_next_elem in Hnext. rewrite list_elem_of_singleton. congruence.
Qed.

Lemma notify_gone (callback : Subscriber) (w : world) :
  gone callback w -> not_invoked callback w (notify w).
Proof.
  intros H. unfold notify.
  by apply (next_iteration_gone callback (mkWorld (state w) (storage w) (0 :: loops w) (invoked w))).
Qed.

Lemma subscribers_notify (w : world) :
  subscribers (state (notify w)) = subscribers (state w).
Proof. by rewrite state_notify. Qed.

Lemma step_gone (callback : Subscriber) (a : action) (w w' : world) :
  a <> Subscribe callback ->
  step a w = Some w' ->
  gone callback w ->
  gone callback w' /\ not_invoked callback w w'.
Proof.
  intros Ha Hstep Hw. destruct a; cbn [step] in Hstep.
  - injection Hstep as <-. unfold setLocation. split.
    + unfold gone. by rewrite subscribers_notify.
    + by apply (notify_gone callback (mkWorld _ _ _ _)).
  - injection Hstep as <-. unfold setWeatherData. split.
    + unfold gone. by rewrite subscribers_notify.
    + by apply (notify_gone callback (mkWorld _ _ _ _)).
  - injection Hstep as <-. unfold setLoading. split.
    + unfold gone. by rewrite subscribers_notify.
    + by apply (notify_gone callback (mkWorld _ _ _ _)).
  - injection Hstep as <-. unfold setError. split.
    + unfold gone. by rewrite subscribers_notify.
    + by apply (notify_gone callback (mkWorld _ _ _ _)).
  - injection Hstep as <-. unfold setTemperatureUnit. split.
    + unfold gone. by rewrite subscribers_notify.
    + by apply (notify_gone callback (mkWorld _ _ _ _)).
  - injection Hstep as <-. split; [|by apply not_invoked_refl].
    unfold gone, subscribe; cbn. apply Set_add_gone; [congruence|done].
  - injection Hstep as <-. split; [|by apply not_invoked_refl].
    unfold gone, unsubscribe; cbn. by apply Set_delete_gone.
  - destruct (saveToStorage_normal w) as [ls' Hs]. rewrite Hs in Hstep.
    injection Hstep as <-. split; [done|by apply not_invoked_refl].
  - unfold loadFromStorage in Hstep.
    destruct (getStorageItem_normal (storage w) STORAGE_KEY_LOCATION) as [v1 Hv1].
    destruct (getStorageItem_normal (storage w) STORAGE_KEY_UNIT) as [v2 Hv2].
    rewrite Hv1, Hv2 in Hstep. cbn [bind] in Hstep. injection Hstep as <-. split.
    + unfold gone. by rewrite subscribers_notify.
    + by apply (notify_gone callback (mkWorld _ _ _ _)).
  - destruct (loops w) eqn:Hl; [done|]. injection Hstep as <-. split.
    + unfold gone. by rewrite state_next_iteration.
    + by apply next_iteration_gone.
  - destruct (loops w) eqn:Hl; [done|]. injection Hstep as <-. split.
    + unfold gone. by rewrite state_next_iteration.
    + by apply next_iteration_gone.
Qed.

Lemma run_gone (callback : Subscriber) (actions : list action) (w w' : world) :
  Subscribe callback ∉ actions ->
  run actions w = Some w' ->
  gone callback w ->
  gone callback w' /\ not_invoked callback w w'.
Proof.
  revert w. induction actions as [|a rest IH]; cbn; intros w Hnot Hrun Hw.
  - injection Hrun as <-. split; [done|by apply not_invoked_refl].
  - apply not_elem_of_cons in Hnot as [Ha Hrest].
    destruct (step a w) as [w1|] eqn:Hstep; [|done].
    destruct (step_gone callback a w w1) as [Hw1 Hi1]; [done..|].
    destruct (IH w1) as [Hw' Hi]; [done..|].
    split; [done|]. by eapply not_invoked_trans.
Qed.

(** C9, amended.  Once the function returned by [subscribe callback] has
    been called, from the top level or from inside a notification (that
    of the callback itself included), no notification invokes the
    callback, and calling the function again changes nothing, for as long
    as the same callback is not subscribed again. *)
Theorem unsubscribed_until_resubscribed
    (callback : Subscriber) (w : world) (later : list action) (w' : world) :
  Subscribe callback ∉ later ->
  run later (unsubscribe callback w) = Some w' ->
  not_invoked callback w w' /\ unsubscribe callback w' = w'.
Proof.
  intros Hnot Hrun.
  destruct (run_gone callback later (unsubscribe callback w) w') as [Hgone Hinv]; [done..| |].
  { unfold gone, unsubscribe; cbn. apply Set_delete_self. }
  split; [done|].
  unfold unsubscribe. rewrite Set_delete_absent by done.
  by destruct w' as [[] ? ? ?].
Qed.

(** ** Persistence *)

(** Nothing can be read under the key: the store is denied, holds no
    item under the key, or holds text that does not parse. *)
Definition absent (ls : Storage.localStorage) (key : string) : Prop :=
  Storage.denied ls = true
  \/ Storage.items ls !! (Storage.STORAGE_PREFIX +:+ key) = None
  \/ exists raw : string,
       Storage.items ls !! (Storage.STORAGE_PREFIX +:+ key) = Some (Storage.Garbled raw).

(** The store can be read and holds the text of [v] under the key. *)
Definition stored (ls : Storage.localStorage) (key : string) (v : Js.value) : Prop :=
  Storage.denied ls = false
  /\ Storage.items ls !! (Storage.STORAGE_PREFIX +:+ key) = Some (Storage.Json v).

(** The value has no property [k], or one that is [null] or the empty
    string. *)
Definition lacks (v : Js.value) (k : string) : Prop :=
  Js.prop v k = None \/ Js.prop v k = Some Js.Null \/ Js.prop v k = Some (Js.Str "").

(** The value has a property [k] that is a string and not empty. *)
Definition carries (v : Js.value) (k : string) : Prop :=
  exists s : string, Js.prop v k = Some (Js.Str s) /\ s <> "".

Definition malformed_location (v : Js.value) : Prop :=
  lacks v "name" \/ lacks v "country".

Definition malformed_unit (v : Js.value) : Prop :=
  v <> Js.Str "C" /\ v <> Js.Str "F".

Lemma getStorageItem_absent (ls : Storage.localStorage) (key : string) :
  absent ls key -> Storage.getStorageItem ls key = Normal Js.Null.
Proof.
  unfold absent, Storage.getStorageItem, Storage.getItem.
  destruct (Storage.denied ls); [done|].
  intros [?|[->|[raw ->]]]; done.
Qed.

Lemma getStorageItem_stored (ls : Storage.localStorage) (key : string) (v : Js.value) :
  stored ls key v -> Storage.getStorageItem ls key = Normal v.
Proof.
  unfold stored, Storage.getStorageItem, Storage.getItem. by intros [-> ->].
Qed.

Lemma lacks_falsy (v : Js.value) (k : string) :
  lacks v k -> Js.truthy_opt (Js.prop v k) = false.
Proof. by intros [->|[->| ->]]. Qed.

Lemma carries_truthy (v : Js.value) (k : string) :
  carries v k -> Js.truthy_opt (Js.prop v k) = true /\ Js.truthy v = true.
Proof.
  intros (s & Hs & Hne). rewrite Hs. split.
  - cbn. by destruct s.
  - by destruct v.
Qed.

(** What [loadFromStorage] leaves in the two restored fields. *)
Lemma loadFromStorage_result (w : world) (v1 v2 : Js.value) :
  Storage.getStorageItem (storage w) STORAGE_KEY_LOCATION = Normal v1 ->
  Storage.getStorageItem (storage w) STORAGE_KEY_UNIT = Normal v2 ->
  exists w' : world,
    loadFromStorage w = Normal w'
    /\ storage w' = storage w
    /\ currentLocation (state w')
       = (if Js.truthy v1 && Js.truthy_opt (Js.prop v1 "name")
             && Js.truthy_opt (Js.prop v1 "country")
          then v1 else currentLocation (state w))
    /\ temperatureUnit (state w')
       = (match v2 with
          | Js.Str u => if String.eqb u "C" then C
                        else if String.eqb u "F" then F else temperatureUnit (state w)
          | _ => temperatureUnit (state w)
          end).
Proof.
  intros H1 H2. unfold loadFromStorage. rewrite H1, H2. cbn [bind].
  eexists. split; [done|]. by rewrite state_notify, storage_notify.
Qed.

(** C7.  Reading the store never raises, and resolves to [null] when
    nothing can be read under the key; [loadFromStorage] returns normally
    in every state and with every store; it keeps the location it had when
    no location can be read or the one stored has no name or no country
    (missing, [null] or the empty string), and keeps the unit it had when
    no unit can be read or the one stored is neither "C" nor "F"; an
    exception of a notified callback is dropped like its return. *)
Theorem loadFromStorage_safe (w : world) :
  (forall (ls : Storage.localStorage) (key : string),
     (exists v : Js.value, Storage.getStorageItem ls key = Normal v)
     /\ (absent ls key -> Storage.getStorageItem ls key = Normal Js.Null))
  /\ (exists w' : world,
       loadFromStorage w = Normal w'
       /\ step LoadFromStorage w = Some w'
       /\ (absent (storage w) STORAGE_KEY_LOCATION
            \/ (exists v, stored (storage w) STORAGE_KEY_LOCATION v /\ malformed_location v) ->
            currentLocation (state w') = currentLocation (state w))
       /\ (absent (storage w) STORAGE_KEY_UNIT
            \/ (exists v, stored (storage w) STORAGE_KEY_UNIT v /\ malformed_unit v) ->
            temperatureUnit (state w') = temperatureUnit (state w)))
  /\ (forall w0 : world, step CallbackThrows w0 = step CallbackReturns w0).
Proof.
  split; [|split]; [| |done].
  { intros ls key. split; [apply getStorageItem_normal|apply getStorageItem_absent]. }
  destruct (getStorageItem_normal (storage w) STORAGE_KEY_LOCATION) as [v1 H1].
  destruct (getStorageItem_normal (storage w) STORAGE_KEY_UNIT) as [v2 H2].
  destruct (loadFromStorage_result w v1 v2 H1 H2) as (w' & Hload & _ & Hloc & Hunit).
  exists w'. split; [done|]. split; [by cbn [step]; rewrite Hload|]. split.
  - rewrite Hloc. intros [Habs|(v & Hv & Hbad)].
    + apply getStorageItem_absent in Habs. rewrite Habs in H1. by injection H1 as <-.
    + apply getStorageItem_stored in Hv. rewrite Hv in H1. injection H1 as <-.
      destruct Hbad as [Hbad|Hbad]; apply lacks_falsy in Hbad; rewrite Hbad;
        by rewrite ?andb_false_r.
  - rewrite Hunit. intros [Habs|(v & Hv & Hc & Hf)].
    + apply getStorageItem_absent in Habs. rewrite Habs in H2. by injection H2 as <-.
    + apply getStorageItem_stored in Hv. rewrite Hv in H2. injection H2 as <-.
      destruct v as [| | |u| |]; try done.
      destruct (String.eqb_spec u "C") as [->|_]; [done|].
      destruct (String.eqb_spec u "F") as [->|_]; done.
Qed.

(** The stored input is well formed: a location that carries a name and a
    country, and a unit that is "C" or "F". *)
Definition well_formed (ls : Storage.localStorage) : Prop :=
  (exists v : Js.value,
     Storage.items ls !! (Storage.STORAGE_PREFIX +:+ STORAGE_KEY_LOCATION) = Some (Storage.Json v)
     /\ carries v "name" /\ carries v "country")
  /\ (exists u : TemperatureUnit,
     Storage.items ls !! (Storage.STORAGE_PREFIX +:+ STORAGE_KEY_UNIT)
     = Some (Storage.Json (unit_value u))).

(** The actions that assign no field of the state. *)
Definition quiet (a : action) : bool :=
  match a with
  | Subscribe _ | Unsubscribe _ | SaveToStorage | CallbackReturns | CallbackThrows => true
  | _ => false
  end.

(** What is read back of a value that [JSON.stringify] wrote. *)
Lemma JSON_number_writable (n : Js.number) :
  Storage.writable_number n = true -> Storage.JSON_number n = Js.Num n.
Proof. unfold Storage.writable_number, Storage.JSON_number. by destruct (PrimFloat.classify n). Qed.

Lemma JSON_value_writable :
  forall v : Js.value, Storage.writable v = true -> Storage.JSON_value v = v.
Proof.
  fix IH 1. intros [|b|n|s|items|fields]; cbn [Storage.JSON_value Storage.writable]; try done.
  - apply JSON_number_writable.
  - intros H. f_equal. induction items as [|x xs IHxs]; [done|].
    cbn [forallb] in H. apply andb_true_iff in H as [Hx Hxs].
    cbn [map]. f_equal; [by apply IH|by apply IHxs].
  - intros H. f_equal. induction fields as [|[k x] rest IHrest]; [done|].
    cbn [forallb snd] in H. apply andb_true_iff in H as [Hx Hrest].
    cbn [map fst snd]. f_equal; [f_equal; by apply IH|by apply IHrest].
Qed.

(** What [JSON.stringify] wrote is read back as it is when written again. *)
Lemma writable_JSON_number (n : Js.number) : Storage.writable (Storage.JSON_number n) = true.
Proof.
  unfold Storage.JSON_number. destruct (PrimFloat.classify n) eqn:Hn; try done;
    cbn [Storage.writable]; unfold Storage.writable_number; by rewrite Hn.
Qed.

Lemma writable_JSON_value :
  forall v : Js.value, Storage.writable (Storage.JSON_value v) = true.
Proof.
  fix IH 1. intros [|b|n|s|items|fields]; cbn [Storage.JSON_value]; try done.
  - apply writable_JSON_number.
  - cbn [Storage.writable]. induction items as [|x xs IHxs]; [done|].
    cbn [map forallb]. by rewrite IH, IHxs.
  - cbn [Storage.writable]. induction fields as [|[k x] rest IHrest]; [done|].
    cbn [map forallb fst snd]. by rewrite IH, IHrest.
Qed.

Lemma JSON_value_unit (u : TemperatureUnit) :
  Storage.JSON_value (unit_value u) = unit_value u.
Proof. by destruct u. Qed.

(** Saving would write what the store holds already, or cannot write. *)
Definition persisted (w : world) : Prop :=
  Storage.denied (storage w) = true
  \/ (Js.truthy (currentLocation (state w)) = true
      /\ Storage.items (storage w) !! (Storage.STORAGE_PREFIX +:+ STORAGE_KEY_LOCATION)
         = Some (Storage.JSON_stringify (currentLocation (state w)))
      /\ Storage.items (storage w) !! (Storage.STORAGE_PREFIX +:+ STORAGE_KEY_UNIT)
         = Some (Storage.JSON_stringify (unit_value (temperatureUnit (state w))))).

Lemma setStorageItem_denied (ls : Storage.localStorage) (key : string) (v : Js.value) :
  Storage.denied ls = true -> Storage.setStorageItem ls key v = Normal ls.
Proof. unfold Storage.setStorageItem, Storage.setItem. by intros ->. Qed.

Lemma setStorageItem_same (ls : Storage.localStorage) (key : string) (v : Js.value) :
  Storage.items ls !! (Storage.STORAGE_PREFIX +:+ key) = Some (Storage.JSON_stringify v) ->
  Storage.setStorageItem ls key v = Normal ls.
Proof.
  unfold Storage.setStorageItem, Storage.setItem. intros H.
  destruct (Storage.denied ls) eqn:Hd; [done|].
  destruct (Storage.fits ls _ _); [|done]. cbn.
  rewrite insert_id by done. rewrite <- Hd. by destruct ls.
Qed.

Lemma saveToStorage_persisted (w : world) : persisted w -> saveToStorage w = Normal w.
Proof.
  unfold saveToStorage. intros [Hd|(Ht & Hl & Hu)].
  - rewrite !(setStorageItem_denied (storage w)) by done.
    destruct (Js.truthy _); cbn [bind]; rewrite setStorageItem_denied by done;
      by destruct w.
  - rewrite Ht, (setStorageItem_same _ _ _ Hl). cbn [bind].
    rewrite (setStorageItem_same _ _ _ Hu). by destruct w.
Qed.

Lemma step_quiet (a : action) (w w' : world) :
  quiet a = true -> persisted w -> step a w = Some w' ->
  persisted w' /\ storage w' = storage w.
Proof.
  destruct a; try done; intros _ Hw Hstep; cbn [step] in Hstep.
  - by injection Hstep as <-.
  - by injection Hstep as <-.
  - rewrite saveToStorage_persisted in Hstep by done. by injection Hstep as <-.
  - destruct (loops w); [done|]. injection Hstep as <-.
    unfold persisted. by rewrite state_next_iteration, storage_next_iteration.
  - destruct (loops w); [done|]. injection Hstep as <-.
    unfold persisted. by rewrite state_next_iteration, storage_next_iteration.
Qed.

Lemma run_quiet (actions : list action) (w w' : world) :
  forallb quiet actions = true -> persisted w -> run actions w = Some w' ->
  persisted w' /\ storage w' = storage w.
Proof.
  revert w. induction actions as [|a rest IH]; cbn; intros w Hq Hw Hrun.
  - by injection Hrun as <-.
  - apply andb_true_iff in Hq as [Ha Hrest].
    destruct (step a w) as [w1|] eqn:Hstep; [|done].
    destruct (step_quiet a w w1) as [Hw1 Hs1]; [done..|].
    destruct (IH w1) as [Hw' Hs]; [done..|].
    split; [done|]. by rewrite Hs.
Qed.

(** The state after [loadFromStorage] over a well-formed store that can
    be read: the stored location and the stored unit. *)
Lemma loadFromStorage_well_formed (w : world) (location : Js.value) :
  well_formed (storage w) ->
  Storage.items (storage w) !! (Storage.STORAGE_PREFIX +:+ STORAGE_KEY_LOCATION)
  = Some (Storage.Json location) ->
  Storage.denied (storage w) = false ->
  exists w' : world,
    loadFromStorage w = Normal w' /\ storage w' = storage w
    /\ currentLocation (state w') = location
    /\ Js.truthy location = true
    /\ Storage.items (storage w) !! (Storage.STORAGE_PREFIX +:+ STORAGE_KEY_UNIT)
       = Some (Storage.JSON_stringify (unit_value (temperatureUnit (state w')))).
Proof.
  intros [(v & Hv & Hname & Hcountry) (u & Hu)] Hl Hd.
  rewrite Hl in Hv. injection Hv as <-.
  destruct (loadFromStorage_result w location (unit_value u)) as (w' & Hload & Hst & Hloc & Hunit).
  { by apply getStorageItem_stored. }
  { by apply getStorageItem_stored. }
  exists w'. split; [done|]. split; [done|].
  apply carries_truthy in Hname as [Hn Ht]. apply carries_truthy in Hcountry as [Hc _].
  rewrite Hn, Hc, Ht in Hloc. cbn in Hloc.
  assert (temperatureUnit (state w') = u) as Hu' by (rewrite Hunit; by destruct u).
  split; [done|]. split; [done|].
  unfold Storage.JSON_stringify. by rewrite Hu', JSON_value_unit.
Qed.

Lemma loadFromStorage_persisted (w : world) (location : Js.value) :
  well_formed (storage w) ->
  Storage.items (storage w) !! (Storage.STORAGE_PREFIX +:+ STORAGE_KEY_LOCATION)
  = Some (Storage.Json location) ->
  Storage.writable location = true ->
  exists w' : world,
    loadFromStorage w = Normal w' /\ persisted w' /\ storage w' = storage w.
Proof.
  intros Hwf Hl Hwr.
  destruct (Storage.denied (storage w)) eqn:Hd.
  - destruct (getStorageItem_normal (storage w) STORAGE_KEY_LOCATION) as [v1 H1].
    destruct (getStorageItem_normal (storage w) STORAGE_KEY_UNIT) as [v2 H2].
    destruct (loadFromStorage_result w v1 v2 H1 H2) as (w' & Hload & Hst & _).
    exists w'. split; [done|]. split; [|done]. left. by rewrite Hst.
  - destruct (loadFromStorage_well_formed w location Hwf Hl Hd)
      as (w' & Hload & Hst & Hloc & Ht & Hu).
    exists w'. split; [done|]. split; [|done]. right.
    rewrite Hst, Hloc. unfold Storage.JSON_stringify at 1.
    by rewrite (JSON_value_writable location Hwr).
Qed.

(** The store with the location item written again from the value
    read. *)
Definition rewritten (location : Js.value) (ls : Storage.localStorage) : Storage.localStorage :=
  if negb (Storage.denied ls)
     && Storage.fits ls (Storage.STORAGE_PREFIX +:+ STORAGE_KEY_LOCATION)
          (Storage.JSON_stringify location)
  then Storage.mkLocalStorage
         (<[Storage.STORAGE_PREFIX +:+ STORAGE_KEY_LOCATION := Storage.JSON_stringify location]>
            (Storage.items ls))
         (Storage.denied ls) (Storage.fits ls)
  else ls.

Lemma load_then_save_rewritten (w : world) (location : Js.value) :
  well_formed (storage w) ->
  Storage.items (storage w) !! (Storage.STORAGE_PREFIX +:+ STORAGE_KEY_LOCATION)
  = Some (Storage.Json location) ->
  exists w' : world,
    run [LoadFromStorage; SaveToStorage] w = Some w'
    /\ storage w' = rewritten location (storage w).
Proof.
  intros Hwf Hl. unfold rewritten. cbn [run step].
  destruct (Storage.denied (storage w)) eqn:Hd; cbn [negb andb].
  - destruct (getStorageItem_normal (storage w) STORAGE_KEY_LOCATION) as [v1 H1].
    destruct (getStorageItem_normal (storage w) STORAGE_KEY_UNIT) as [v2 H2].
    destruct (loadFromStorage_result w v1 v2 H1 H2) as (w1 & -> & Hst & _).
    rewrite saveToStorage_persisted by (left; by rewrite Hst).
    by exists w1.
  - destruct (loadFromStorage_well_formed w location Hwf Hl Hd)
      as (w1 & -> & Hst & Hloc & Ht & Hu).
    unfold saveToStorage. rewrite Hloc, Ht, Hst.
    unfold Storage.setStorageItem at 1. unfold Storage.setItem. rewrite Hd.
    destruct (Storage.fits (storage w) _ (Storage.JSON_stringify location));
      cbn [try_catch bind].
    + rewrite setStorageItem_same; [by eexists|].
      cbn [Storage.items]. rewrite lookup_insert_ne; [done|].
      intros H. vm_compute in H. discriminate H.
    + rewrite setStorageItem_same by done. by eexists.
Qed.

(** C6, amended.  With a well-formed stored input, [loadFromStorage]
    followed by [saveToStorage] returns normally and leaves every stored
    item as it was except the location, which it writes again from the
    value read, when the store takes the write: [JSON.stringify] writes an
    infinity (read from a literal such as 1e999) as [null] and negative
    zero as [0].  When the stored location holds no such number the store
    is left as it was; so it is by any run in which, between the two, the
    notified callbacks only return, throw, subscribe, unsubscribe or
    save. *)
Theorem load_then_save_roundtrip (w : world) (location : Js.value) :
  well_formed (storage w) ->
  Storage.items (storage w) !! (Storage.STORAGE_PREFIX +:+ STORAGE_KEY_LOCATION)
  = Some (Storage.Json location) ->
  (exists w' : world,
     run [LoadFromStorage; SaveToStorage] w = Some w'
     /\ storage w' = rewritten location (storage w))
  /\ (Storage.writable location = true ->
      (exists w' : world,
         run [LoadFromStorage; SaveToStorage] w = Some w' /\ storage w' = storage w)
      /\ (forall (between : list action) (w' : world),
            forallb quiet between = true ->
            run (LoadFromStorage :: between ++ [SaveToStorage]) w = Some w' ->
            storage w' = storage w)).
Proof.
  intros Hwf Hl. split; [by apply load_then_save_rewritten|]. intros Hwr.
  destruct (loadFromStorage_persisted w location Hwf Hl Hwr) as (w1 & Hload & Hp & Hs).
  split.
  - exists w1. cbn. rewrite Hload. by rewrite saveToStorage_persisted.
  - intros between w' Hq. cbn [run step]. rewrite Hload.
    intros Hrun.
    destruct (run_quiet (between ++ [SaveToStorage]) w1 w') as [_ Hs']; [|done..|].
    + rewrite forallb_app, Hq. done.
    + by rewrite Hs'.
Qed.

(** ** Concrete runs *)

(** An empty store that takes every write. *)
Definition empty_store : Storage.localStorage :=
  Storage.mkLocalStorage ∅ false (fun _ _ => true).

Definition paris : LocationSuggestion.t :=
  LocationSuggestion.mk "Paris" "France" "Ile-de-France" 48.875%float 2.375%float.

(** A store written by an earlier session: Paris, Fahrenheit. *)
Definition paris_store : Storage.localStorage :=
  Storage.mkLocalStorage
    (<["weather-app:lastLocation" := Storage.Json (LocationSuggestion.to_value paris)]>
       (<["weather-app:temperatureUnit" := Storage.Json (Js.Str "F")]> ∅))
    false (fun _ _ => true).

(** A store with a location whose name is empty and a unit that is
    neither "C" nor "F". *)
Definition bad_store : Storage.localStorage :=
  Storage.mkLocalStorage
    (<["weather-app:lastLocation" :=
         Storage.Json (Js.Obj [("name", Js.Str ""); ("country", Js.Str "X")])]>
       (<["weather-app:temperatureUnit" := Storage.Json (Js.Str "K")]> ∅))
    false (fun _ _ => true).

Lemma error_loading_exclusive_witness :
  exists w : world,
    run [Subscribe 0; SetLoading true; SaveToStorage; CallbackReturns;
         SetError (Some "Request timed out"); CallbackThrows; SetLoading true]
      (boot empty_store) = Some w
    /\ exclusive (state w).
Proof.
  eexists. split; [vm_compute; reflexivity|].
  apply (proj1 error_loading_exclusive empty_store
           [Subscribe 0; SetLoading true; SaveToStorage; CallbackReturns;
            SetError (Some "Request timed out"); CallbackThrows; SetLoading true]).
  vm_compute; reflexivity.
Defined.

Lemma loadFromStorage_safe_witness :
  let w := mkWorld (mk (LocationSuggestion.to_value paris) None false None F []) bad_store [] [] in
  exists w' : world,
    loadFromStorage w = Normal w'
    /\ currentLocation (state w') = LocationSuggestion.to_value paris
    /\ temperatureUnit (state w') = F.
Proof.
  intros w.
  destruct (proj1 (proj2 (loadFromStorage_safe w))) as (w' & Hload & _ & Hloc & Hunit).
  exists w'. split; [exact Hload|]. split.
  - apply Hloc. right. exists (Js.Obj [("name", Js.Str ""); ("country", Js.Str "X")]).
    split; [split; vm_compute; reflexivity|]. left. right. right. reflexivity.
  - apply Hunit. right. exists (Js.Str "K").
    split; [split; vm_compute; reflexivity|]. split; discriminate.
Defined.

Lemma load_then_save_roundtrip_witness :
  exists w' : world,
    run [LoadFromStorage; SaveToStorage] (boot paris_store) = Some w'
    /\ storage w' = paris_store.
Proof.
  refine (proj1 (proj2 (load_then_save_roundtrip (boot paris_store)
                          (LocationSuggestion.to_value paris) _ _) _)).
  - split.
    + exists (LocationSuggestion.to_value paris).
      split; [vm_compute; reflexivity|].
      split; [exists "Paris"|exists "France"]; (split; [reflexivity|discriminate]).
    + exists F. vm_compute; reflexivity.
  - vm_compute; reflexivity.
  - vm_compute; reflexivity.
Defined.

(** A location whose latitude was stored as the literal 1e999, which
    [JSON.parse] reads as an infinity. *)
Definition overflowing : Js.value :=
  Js.Obj [("name", Js.Str "Paris"); ("country", Js.Str "France");
          ("region", Js.Str "Ile-de-France"); ("lat", Js.Num infinity);
          ("lon", Js.Num 2.375%float)].

Definition overflowing_store : Storage.localStorage :=
  Storage.mkLocalStorage
    (<["weather-app:lastLocation" := Storage.Json overflowing]>
       (<["weather-app:temperatureUnit" := Storage.Json (Js.Str "C")]> ∅))
    false (fun _ _ => true).

(** C6 as stated fails for a stored location that holds a number
    [JSON.stringify] does not write back: the input is well formed, and
    after [loadFromStorage] and [saveToStorage] the stored latitude is
    [null]. *)
Lemma overflowing_latitude_counterexample :
  well_formed overflowing_store
  /\ exists w' : world,
       run [LoadFromStorage; SaveToStorage] (boot overflowing_store) = Some w'
       /\ Storage.items (storage w') !! "weather-app:lastLocation"
          = Some (Storage.Json
                    (Js.Obj [("name", Js.Str "Paris"); ("country", Js.Str "France");
                             ("region", Js.Str "Ile-de-France"); ("lat", Js.Null);
                             ("lon", Js.Num 2.375%float)]))
       /\ Storage.items (storage w') !! "weather-app:lastLocation"
          <> Storage.items overflowing_store !! "weather-app:lastLocation"
       /\ storage w' <> overflowing_store.
Proof.
  split.
  { split.
    - exists overflowing. split; [vm_compute; reflexivity|].
      split; [exists "Paris"|exists "France"]; (split; [reflexivity|discriminate]).
    - exists C. vm_compute; reflexivity. }
  eexists. split; [vm_compute; reflexivity|].
  split; [vm_compute; reflexivity|].
  assert (Storage.items overflowing_store !! "weather-app:lastLocation"
          = Some (Storage.Json overflowing)) as Hbefore by (vm_compute; reflexivity).
  split.
  - rewrite Hbefore. vm_compute. discriminate.
  - intros H. apply (f_equal (fun ls => Storage.items ls !! "weather-app:lastLocation")) in H.
    rewrite Hbefore in H. vm_compute in H. discriminate H.
Qed.

Lemma unsubscribed_until_resubscribed_witness :
  let w := setLoading true (subscribe 2 (subscribe 1 (boot empty_store))) in
  let later := [CallbackReturns; CallbackReturns; SetError (Some "offline");
                CallbackThrows; Unsubscribe 1; SetLoading false; CallbackReturns] in
  invoked w = [1]
  /\ exists w' : world,
       run later (unsubscribe 1 w) = Some w'
       /\ not_invoked 1 w w'
       /\ unsubscribe 1 w' = w'.
Proof.
  intros w later. split; [vm_compute; reflexivity|].
  eexists. split; [vm_compute; reflexivity|].
  apply (unsubscribed_until_resubscribed 1 w later); [|vm_compute; reflexivity].
  unfold later. rewrite !not_elem_of_cons. repeat split; try discriminate.
  apply not_elem_of_nil.
Defined.

(** C9 as stated fails when the callback is subscribed again after its
    unsubscribe function was called: a later notification invokes it, and
    a second call of the same unsubscribe function removes the new
    registration. *)
Lemma resubscribed_callback_counterexample :
  let w := subscribe 7 (unsubscribe 7 (subscribe 7 (boot empty_store))) in
  invoked w = []
  /\ invoked (setLoading true w) = [7]
  /\ unsubscribe 7 w <> w.
Proof.
  cbn zeta. split; [vm_compute; reflexivity|]. split; [vm_compute; reflexivity|].
  intros H. apply (f_equal (fun w => subscribers (state w))) in H.
  vm_compute in H. discriminate H.
Qed.

End ObservableState.

(* ================================================================== *)
(** * Properties of the location search *)
(* ================================================================== *)

Section GeolocationLookup.

Import LocationSearch.

Variable Number_toString : Js.number -> string.

(** The query of the coordinate search. *)
Definition coordinate_query (position : GeolocationCoordinates.t) : string :=
  Number_toString (GeolocationCoordinates.latitude position) +:+ "," +:+
  Number_toString (GeolocationCoordinates.longitude position).

(** C4, amended.  When the position request is rejected (permission
    denied, position unavailable, timeout) or the coordinate search fails,
    the component shows an inline message in its dropdown, and its input is
    empty and enabled.  When the device has no geolocation, it shows an
    inline message and leaves the input as it was.  When the coordinate
    search finds nothing, it shows an inline message and enables the
    input.  In all these cases it dispatches no event: nothing reaches the
    state. *)
Theorem geolocation_failure_inline
    (svc : WeatherService.t) (axios : Axios.t) (this : LocationSearch.t) :
  (let after := handleGeolocation Number_toString None svc axios this in
   dropdownEl after = ErrorText "Geolocation is not supported by your browser."
   /\ dropdownHidden after = false
   /\ inputValue after = inputValue this
   /\ inputDisabled after = inputDisabled this
   /\ dispatched after = dispatched this)
  /\ (forall e : GeolocationPositionError,
     let after := handleGeolocation Number_toString (Some (Throw e)) svc axios this in
     dropdownEl after = ErrorText "Unable to get your location. Please check permissions."
     /\ dropdownHidden after = false
     /\ inputValue after = ""
     /\ inputDisabled after = false
     /\ isLoading after = false
     /\ dispatched after = dispatched this)
  /\ (forall (position : GeolocationCoordinates.t) (failure : Error.t),
     WeatherService.searchLocations svc axios (coordinate_query position) = Throw failure ->
     let after := handleGeolocation Number_toString (Some (Normal position)) svc axios this in
     dropdownEl after = ErrorText "Unable to get your location. Please check permissions."
     /\ dropdownHidden after = false
     /\ inputValue after = ""
     /\ inputDisabled after = false
     /\ isLoading after = false
     /\ dispatched after = dispatched this)
  /\ (forall position : GeolocationCoordinates.t,
     WeatherService.searchLocations svc axios (coordinate_query position) = Normal [] ->
     let after := handleGeolocation Number_toString (Some (Normal position)) svc axios this in
     dropdownEl after = ErrorText "Could not determine your location."
     /\ dropdownHidden after = false
     /\ inputDisabled after = false
     /\ isLoading after = false
     /\ dispatched after = dispatched this).
Proof.
  split; [|split; [|split]].
  - by cbn.
  - intros e. by cbn.
  - intros position failure H. unfold handleGeolocation, coordinate_query in *.
    cbn [await bind try_catch]. rewrite H. by cbn.
  - intros position H. unfold handleGeolocation, coordinate_query in *.
    cbn [await bind try_catch]. rewrite H. by cbn.
Qed.

(** After a coordinate search that finds nothing, the input still reads
    the text written before the lookup. *)
Lemma empty_result_keeps_placeholder
    (svc : WeatherService.t) (axios : Axios.t) (this : LocationSearch.t)
    (position : GeolocationCoordinates.t) :
  WeatherService.searchLocations svc axios (coordinate_query position) = Normal [] ->
  inputValue (handleGeolocation Number_toString (Some (Normal position)) svc axios this)
  = "Detecting location...".
Proof.
  intros H. unfold handleGeolocation, coordinate_query in *.
  cbn [await bind try_catch]. rewrite H. by cbn.
Qed.

End GeolocationLookup.

(** A transport whose searches find nothing. *)
Definition finds_nothing : Axios.t :=
  Axios.mk (fun _ => Throw (NotAxiosError "unused")) (fun _ => Normal []).

Lemma geolocation_failure_inline_witness :
  let after :=
    LocationSearch.handleGeolocation (fun _ => "0")
      (Some (Normal (LocationSearch.GeolocationCoordinates.mk 48.875%float 2.375%float)))
      demo_service (failing status_404) LocationSearch.new in
  LocationSearch.dropdownEl after
    = LocationSearch.ErrorText "Unable to get your location. Please check permissions."
  /\ LocationSearch.dropdownHidden after = false
  /\ LocationSearch.inputValue after = ""
  /\ LocationSearch.inputDisabled after = false
  /\ LocationSearch.isLoading after = false
  /\ LocationSearch.dispatched after = [].
Proof.
  refine (proj1 (proj2 (proj2
    (geolocation_failure_inline (fun _ => "0") demo_service (failing status_404)
       LocationSearch.new)))
    (LocationSearch.GeolocationCoordinates.mk 48.875%float 2.375%float) _ _).
  vm_compute; reflexivity.
Defined.

(** C4 as stated fails where the device has no geolocation: the text the
    user typed stays in the input. *)
Lemma unsupported_keeps_input_counterexample :
  let typed := LocationSearch.set_input "Lon" false LocationSearch.new in
  let after :=
    LocationSearch.handleGeolocation (fun _ => "0") None demo_service finds_nothing typed in
  LocationSearch.dropdownEl after
    = LocationSearch.ErrorText "Geolocation is not supported by your browser."
  /\ LocationSearch.inputValue after = "Lon"
  /\ LocationSearch.inputValue after <> "".
Proof. cbn zeta. split; [reflexivity|]. split; [reflexivity|discriminate]. Qed.

(** The run behind [empty_result_keeps_placeholder]: the device answers,
    the search finds nothing. *)
Lemma empty_result_example :
  let after :=
    LocationSearch.handleGeolocation (fun _ => "0")
      (Some (Normal (LocationSearch.GeolocationCoordinates.mk 48.875%float 2.375%float)))
      demo_service finds_nothing LocationSearch.new in
  LocationSearch.dropdownEl after = LocationSearch.ErrorText "Could not determine your location."
  /\ LocationSearch.inputValue after = "Detecting location...".
Proof. cbn zeta. split; reflexivity. Qed.

(* ================================================================== *)
(** * Properties of the controller *)
(* ================================================================== *)

Section Controller.

Import AppState.

(** The state as the controller leaves it between two of its own calls:
    its one subscriber registered, no notification under way. *)
Definition wired (w : world) : Prop :=
  subscribers (state w) = [Some App.stateSubscriber] /\ loops w = [].

Lemma wired_setup (svc : WeatherService.t) (ls : Storage.localStorage) :
  wired (App.state (App.setupStateSubscription (App.new svc ls))).
Proof. by split. Qed.

(** The notification of the controller's subscriber: it saves, it
    returns, and the loop ends. *)
Lemma notify_wired (w0 : world) :
  wired w0 ->
  exists ls' : Storage.localStorage,
    run [SaveToStorage; CallbackReturns] (notify w0)
    = Some (mkWorld (state w0) ls' [] (App.stateSubscriber :: invoked w0)).
Proof.
  intros [Hsubs Hloops].
  unfold notify, next_iteration. cbn [loops state storage invoked].
  rewrite Hsubs, Hloops. cbn [Set_next drop first_entry].
  cbn [run step].
  destruct (saveToStorage_normal
              (mkWorld (state w0) (storage w0) [1] (App.stateSubscriber :: invoked w0)))
    as [ls' ->].
  exists ls'. cbn [loops]. unfold next_iteration. cbn [loops state storage invoked].
  rewrite Hsubs. reflexivity.
Qed.

Lemma call_unfold (a : action) (w : world) :
  App.call a w
  = match step a w with
    | Some w' => run [SaveToStorage; CallbackReturns] w'
    | None => None
    end.
Proof. reflexivity. Qed.

Lemma call_setLocation (location : Js.value) (w : world) :
  wired w ->
  exists w' : world,
    App.call (SetLocation location) w = Some w' /\ wired w'
    /\ weatherData (state w') = weatherData (state w)
    /\ temperatureUnit (state w') = temperatureUnit (state w).
Proof.
  intros [Hs Hl]. rewrite call_unfold. cbn [step]. unfold setLocation.
  edestruct notify_wired as [ls' ->]; [by split|].
  eexists. split; [done|]. by repeat split.
Qed.

Lemma call_setLoading (loading : bool) (w : world) :
  wired w ->
  exists w' : world,
    App.call (SetLoading loading) w = Some w' /\ wired w'
    /\ isLoading (state w') = loading
    /\ currentLocation (state w') = currentLocation (state w)
    /\ weatherData (state w') = weatherData (state w)
    /\ temperatureUnit (state w') = temperatureUnit (state w).
Proof.
  intros [Hs Hl]. rewrite call_unfold. cbn [step]. unfold setLoading.
  edestruct notify_wired as [ls' ->]; [by split|].
  eexists. split; [done|]. by repeat split.
Qed.

Lemma call_setError (e : option string) (w : world) :
  wired w ->
  exists w' : world,
    App.call (SetError e) w = Some w' /\ wired w'
    /\ error (state w') = e
    /\ isLoading (state w') = false
    /\ currentLocation (state w') = currentLocation (state w)
    /\ weatherData (state w') = weatherData (state w)
    /\ temperatureUnit (state w') = temperatureUnit (state w).
Proof.
  intros [Hs Hl]. rewrite call_unfold. cbn [step]. unfold setError.
  edestruct notify_wired as [ls' ->]; [by split|].
  eexists. split; [done|]. by repeat split.
Qed.

(** What the controller shows of a failure. *)
Definition failure_shown (failure : Error.t) (this : App.t) : Prop :=
  error (state (App.state this)) = Some (Error.message failure)
  /\ isLoading (state (App.state this)) = false
  /\ CurrentWeather.container (App.currentWeather this)
     = CurrentWeather.ErrorMessage (Error.message failure).

(** The line that [handleError] writes to the console for a failure. *)
Definition console_line (failure : Error.t) : string :=
  "[WeatherApp] " +:+ Error.message failure.

(** C1, amended.  When the fetch of a location change fails, the
    controller puts the message in the error field of the state, clears
    the loading flag, shows the message in the current-conditions panel
    and writes one console line, the message after the tag of the
    application; it leaves the forecast panel, the search
    component, the status banner and the other fields of the state as they
    stood when the fetch settled.  With nothing else running during the
    fetch, the forecast panel then shows the loading skeleton that the
    start of the attempt put there. *)
Theorem fetch_failure_surfaces
    (axios : Axios.t) (location : LocationSuggestion.t) (failure : Error.t) (this : App.t) :
  wired (App.state this) ->
  (exists settled : App.t,
     App.loadWeatherForLocation_settle (Throw failure) this = Some settled
     /\ failure_shown failure settled
     /\ App.console settled = console_line failure :: App.console this
     /\ App.weatherForecast settled = App.weatherForecast this
     /\ App.locationSearch settled = App.locationSearch this
     /\ App.status settled = App.status this
     /\ currentLocation (state (App.state settled)) = currentLocation (state (App.state this))
     /\ weatherData (state (App.state settled)) = weatherData (state (App.state this))
     /\ temperatureUnit (state (App.state settled)) = temperatureUnit (state (App.state this))
     /\ subscribers (state (App.state settled)) = subscribers (state (App.state this)))
  /\ (WeatherService.getForecast (App.weatherService this) axios
        (LocationSuggestion.name location) 5%float = Throw failure ->
      exists after : App.t,
        App.loadWeatherForLocation axios location this = Some after
        /\ failure_shown failure after
        /\ App.console after = console_line failure :: App.console this
        /\ WeatherForecast.container (App.weatherForecast after) = WeatherForecast.Skeleton
        /\ App.locationSearch after = App.locationSearch this
        /\ App.status after = App.status this).
Proof.
  intros Hw. split.
  - unfold App.loadWeatherForLocation_settle, App.handleError.
    destruct (call_setError (Some (Error.message failure)) (App.state this) Hw)
      as (w' & -> & [Hsubs' _] & He & Hl & Hloc & Hdata & Hunit).
    destruct Hw as [Hsubs _].
    eexists. split; [done|]. cbn [mbind option_bind App.state]. rewrite Hsubs', Hsubs.
    by repeat split.
  - intros Hfetch. unfold App.loadWeatherForLocation, App.loadWeatherForLocation_start.
    destruct (call_setLocation (LocationSuggestion.to_value location) (App.state this) Hw)
      as (w1 & -> & Hw1 & _).
    destruct (call_setLoading true w1 Hw1) as (w2 & H2 & Hw2 & _).
    cbn [mbind option_bind]. rewrite H2. cbn [mbind option_bind App.weatherService].
    rewrite Hfetch. unfold App.loadWeatherForLocation_settle, App.handleError.
    cbn [App.state].
    destruct (call_setError (Some (Error.message failure)) w2 Hw2)
      as (w3 & -> & _ & He & Hl & _).
    eexists. split; [done|]. by repeat split.
Qed.

End Controller.

(** A provider payload for London with one forecast day. *)
Definition london_response : WeatherApiResponse.t :=
  WeatherApiResponse.mk
    (ApiLocation.mk "London" "City of London, Greater London" "United Kingdom" 51.5%float (-0.125)%float)
    (ApiCurrent.mk 20%float (ApiCondition.mk "Sunny" "//cdn/113.png") 40%float 7.5%float
       1012%float 10%float 4%float)
    (Some (ApiForecast.mk (Some [
       ApiForecastDay.mk "2024-06-01"
         (ApiDay.mk 22.5%float 12.25%float (ApiCondition.mk "Sunny" "//cdn/113.png")
            55%float 14.5%float)]))).

Definition london : LocationSuggestion.t :=
  LocationSuggestion.mk "London" "United Kingdom" "City of London, Greater London"
    51.5%float (-0.125)%float.

(** A transport that answers every forecast request with London's payload. *)
Definition answers_london : Axios.t :=
  Axios.mk (fun _ => Normal london_response) (fun _ => Normal []).

(** The controller after its set-up, over an empty store. *)
Definition fresh_app : App.t :=
  App.setupStateSubscription (App.new demo_service empty_store).

Lemma fetch_failure_surfaces_witness :
  exists after : App.t,
    App.loadWeatherForLocation (failing status_404) paris fresh_app = Some after
    /\ failure_shown
         (Error.mk (("Failed to fetch forecast for " +:+ Js.dq +:+ "Paris" +:+ Js.dq)
                    +:+ ": Location not found")) after
    /\ App.console after
       = ["[WeatherApp] Failed to fetch forecast for " +:+ Js.dq +:+ "Paris" +:+ Js.dq
          +:+ ": Location not found"]
    /\ WeatherForecast.container (App.weatherForecast after) = WeatherForecast.Skeleton
    /\ App.locationSearch after = App.locationSearch fresh_app
    /\ App.status after = App.status fresh_app.
Proof.
  refine (proj2 (fetch_failure_surfaces (failing status_404) paris _ fresh_app _) _).
  - apply wired_setup.
  - vm_compute; reflexivity.
Defined.

(** C1 as stated fails for a panel that showed a forecast: after London
    has loaded the panel shows London's day card; a change to Paris whose
    fetch fails leaves the panel on the loading skeleton. *)
Lemma forecast_panel_changed_counterexample :
  exists before after : App.t,
    App.loadWeatherForLocation answers_london london fresh_app = Some before
    /\ App.loadWeatherForLocation (failing status_404) paris before = Some after
    /\ (exists card, WeatherForecast.container (App.weatherForecast before)
                     = WeatherForecast.Cards [card])
    /\ WeatherForecast.container (App.weatherForecast after) = WeatherForecast.Skeleton
    /\ WeatherForecast.container (App.weatherForecast after)
       <> WeatherForecast.container (App.weatherForecast before).
Proof.
  eexists. eexists.
  split; [vm_compute; reflexivity|].
  split; [vm_compute; reflexivity|].
  split; [eexists; vm_compute; reflexivity|].
  split; [vm_compute; reflexivity|].
  vm_compute. discriminate.
Qed.

(* ================================================================== *)
(** * Further properties of the storage adapter *)
(* ================================================================== *)

Section StorageAdapter.

Import Storage.

Lemma prefixed_ne (key key' : string) :
  key' <> key -> STORAGE_PREFIX +:+ key' <> STORAGE_PREFIX +:+ key.
Proof. intros Hne Heq. apply Hne. by apply (inj (String.append STORAGE_PREFIX)) in Heq. Qed.

Lemma getStorageItem_lookup (ls ls' : localStorage) (key : string) :
  denied ls' = denied ls ->
  items ls' !! (STORAGE_PREFIX +:+ key) = items ls !! (STORAGE_PREFIX +:+ key) ->
  getStorageItem ls' key = getStorageItem ls key.
Proof. unfold getStorageItem, getItem. by intros -> ->. Qed.

(** A value written under a key of a store that takes the write is read
    back under that key as [JSON.stringify] wrote it: as it was when none
    of its numbers is NaN, an infinity or negative zero, and otherwise
    with [null] for each NaN and infinity and [0] for each negative zero.
    What is read back would be written and read back as it is, and what
    is read under every other key is as before. *)
Theorem storage_set_then_get (ls : localStorage) (key : string) (v : Js.value) :
  denied ls = false ->
  fits ls (STORAGE_PREFIX +:+ key) (JSON_stringify v) = true ->
  exists ls' : localStorage,
    setStorageItem ls key v = Normal ls'
    /\ getStorageItem ls' key = Normal (JSON_value v)
    /\ (writable v = true -> getStorageItem ls' key = Normal v)
    /\ writable (JSON_value v) = true
    /\ forall key' : string, key' <> key -> getStorageItem ls' key' = getStorageItem ls key'.
Proof.
  intros Hd Hf. unfold setStorageItem, setItem. rewrite Hd, Hf. cbn [try_catch].
  eexists. split; [done|].
  assert (getStorageItem
            (mkLocalStorage (<[STORAGE_PREFIX +:+ key := JSON_stringify v]> (items ls))
               false (fits ls)) key = Normal (JSON_value v)) as Hget.
  { unfold getStorageItem, getItem, JSON_stringify. cbn [denied items bind].
    by rewrite lookup_insert_eq. }
  split; [exact Hget|]. split; [|split].
  - intros Hw. by rewrite Hget, (JSON_value_writable v Hw).
  - apply writable_JSON_value.
  - intros key' Hne. apply getStorageItem_lookup; cbn; [done|].
    apply lookup_insert_ne. intros Heq. by apply (prefixed_ne key key').
Qed.

(** [setStorageItem] never raises, and a store that is denied or has no
    room for the write is left as it was. *)
Theorem storage_set_refused (ls : localStorage) (key : string) (v : Js.value) :
  (exists ls' : localStorage, setStorageItem ls key v = Normal ls')
  /\ (denied ls = true \/ fits ls (STORAGE_PREFIX +:+ key) (JSON_stringify v) = false ->
      setStorageItem ls key v = Normal ls).
Proof.
  split; [apply setStorageItem_normal|].
  unfold setStorageItem, setItem. intros [->| Hf]; [done|].
  destruct (denied ls); [done|]. by rewrite Hf.
Qed.

(** [removeStorageItem] never raises; after it nothing is read under the
    key, whatever the store, and what is read under the other keys is as
    before. *)
Theorem storage_remove_then_get (ls : localStorage) (key : string) :
  exists ls' : localStorage,
    removeStorageItem ls key = Normal ls'
    /\ getStorageItem ls' key = Normal Js.Null
    /\ forall key' : string, key' <> key -> getStorageItem ls' key' = getStorageItem ls key'.
Proof.
  unfold removeStorageItem, removeItem. destruct (denied ls) eqn:Hd; cbn [try_catch].
  - exists ls. split; [done|]. split; [|done].
    unfold getStorageItem, getItem. by rewrite Hd.
  - eexists. split; [done|]. split.
    + unfold getStorageItem, getItem; cbn. by rewrite lookup_delete_eq.
    + intros key' Hne. apply getStorageItem_lookup; cbn; [done|].
      apply lookup_delete_ne. intros Heq. by apply (prefixed_ne key key').
Qed.

End StorageAdapter.

Lemma storage_set_then_get_witness :
  exists ls' : Storage.localStorage,
    Storage.setStorageItem empty_store "lastLocation" overflowing = Normal ls'
    /\ Storage.getStorageItem ls' "lastLocation"
       = Normal (Js.Obj [("name", Js.Str "Paris"); ("country", Js.Str "France");
                         ("region", Js.Str "Ile-de-France"); ("lat", Js.Null);
                         ("lon", Js.Num 2.375%float)])
    /\ Storage.getStorageItem ls' "temperatureUnit"
       = Storage.getStorageItem empty_store "temperatureUnit".
Proof.
  destruct (storage_set_then_get empty_store "lastLocation" overflowing eq_refl eq_refl)
    as (ls' & Hset & Hget & _ & _ & Hother).
  exists ls'. split; [exact Hset|]. split; [exact Hget|]. apply Hother. discriminate.
Defined.

Lemma storage_set_refused_witness :
  Storage.setStorageItem (Storage.mkLocalStorage ∅ true (fun _ _ => true)) "lastLocation" Js.Null
  = Normal (Storage.mkLocalStorage ∅ true (fun _ _ => true)).
Proof.
  apply (proj2 (storage_set_refused (Storage.mkLocalStorage ∅ true (fun _ _ => true))
                  "lastLocation" Js.Null)).
  left. reflexivity.
Defined.

Lemma storage_remove_then_get_witness :
  exists ls' : Storage.localStorage,
    Storage.removeStorageItem paris_store "temperatureUnit" = Normal ls'
    /\ Storage.getStorageItem ls' "temperatureUnit" = Normal Js.Null
    /\ Storage.getStorageItem ls' "lastLocation" = Storage.getStorageItem paris_store "lastLocation".
Proof.
  destruct (storage_remove_then_get paris_store "temperatureUnit") as (ls' & H1 & H2 & H3).
  exists ls'. split; [exact H1|]. split; [exact H2|]. apply H3. discriminate.
Defined.

(* ================================================================== *)
(** * Further properties of the weather client *)
(* ================================================================== *)

Section ClientSuccess.

(** When the search request is answered, [searchLocations] returns one
    suggestion per item of the answer, in the order of the answer, with
    the five fields of the item; an empty answer gives the empty
    sequence, not an error. *)
Theorem searchLocations_success
    (svc : WeatherService.t) (axios : Axios.t) (query : string) (found : list ApiLocation.t) :
  Axios.get_locations axios (WeatherService.search_request svc query) = Normal found ->
  exists suggestions : list LocationSuggestion.t,
    WeatherService.searchLocations svc axios query = Normal suggestions
    /\ length suggestions = length found
    /\ (found = [] -> suggestions = [])
    /\ forall i : nat,
         LocationSuggestion.name <$> suggestions !! i = ApiLocation.name <$> found !! i
         /\ LocationSuggestion.country <$> suggestions !! i = ApiLocation.country <$> found !! i
         /\ LocationSuggestion.region <$> suggestions !! i = ApiLocation.region <$> found !! i
         /\ LocationSuggestion.lat <$> suggestions !! i = ApiLocation.lat <$> found !! i
         /\ LocationSuggestion.lon <$> suggestions !! i = ApiLocation.lon <$> found !! i.
Proof.
  intros H. unfold WeatherService.searchLocations. rewrite H. cbn [bind try_catch].
  eexists. split; [done|]. split; [by rewrite length_map|]. split; [by intros ->|].
  intros i.
  change (map ?f found) with (f <$> found). rewrite list_lookup_fmap.
  by destruct (found !! i).
Qed.

(** [getCurrentWeather] returns what [getForecast] returns for one day,
    and each of the two returns a snapshot exactly when its request is
    answered, the snapshot being the transformed answer. *)
Theorem getCurrentWeather_is_one_day_forecast
    (svc : WeatherService.t) (axios : Axios.t) (city : string) :
  (forall data : WeatherData.t,
     WeatherService.getCurrentWeather svc axios city = Normal data
     <-> WeatherService.getForecast svc axios city 1%float = Normal data)
  /\ (forall (days : Js.number) (data : WeatherData.t),
     WeatherService.getForecast svc axios city days = Normal data
     <-> exists response : WeatherApiResponse.t,
           Axios.get_weather axios (WeatherService.forecast_request svc city days) = Normal response
           /\ data = WeatherService.transformWeatherResponse response).
Proof.
  split.
  - intros data. unfold WeatherService.getCurrentWeather, WeatherService.getForecast.
    by destruct (Axios.get_weather axios _).
  - intros days data. unfold WeatherService.getForecast.
    destruct (Axios.get_weather axios _) as [response|e]; cbn [bind try_catch]; split.
    + intros [= <-]. by exists response.
    + by intros (r & [= <-] & ->).
    + done.
    + by intros (r & ? & _).
Qed.

End ClientSuccess.

Lemma searchLocations_success_witness :
  exists suggestions : list LocationSuggestion.t,
    WeatherService.searchLocations demo_service finds_nothing "Atlantis" = Normal suggestions
    /\ suggestions = [].
Proof.
  destruct (searchLocations_success demo_service finds_nothing "Atlantis" [] eq_refl)
    as (l & H & _ & Hnil & _).
  exists l. split; [exact H|]. by apply Hnil.
Defined.

(* ================================================================== *)
(** * Further properties of the observable state: notification *)
(* ================================================================== *)

Section Notification.

Import AppState.

(** The callbacks of the set, in insertion order. *)
Definition live (entries : list (option Subscriber)) : list Subscriber := omap id entries.

(** The methods that end with [this.notify()]. *)
Definition notifies (a : action) : bool :=
  match a with
  | SetLocation _ | SetWeatherData _ | SetLoading _ | SetError _
  | SetTemperatureUnit _ | LoadFromStorage => true
  | _ => false
  end.


Lemma first_entry_live (entries : list (option Subscriber)) (i : nat) :
  match first_entry entries i with
  | None => live entries = []
  | Some (j, callback) =>
      exists k : nat, j = i + k /\ k < length entries
                      /\ live entries = callback :: live (drop (S k) entries)
  end.
Proof.
  revert i. induction entries as [|[c|] rest IH]; intros i; cbn [first_entry].
  - done.
  - exists 0. split; [lia|]. split; [cbn; lia|done].
  - specialize (IH (S i)). destruct (first_entry rest (S i)) as [[j c]|]; [|done].
    destruct IH as (k & -> & Hk & Hlive). exists (S k).
    split; [lia|]. split; [cbn; lia|done].
Qed.

Lemma Set_next_live (entries : list (option Subscriber)) (i : nat) :
  match Set_next entries i with
  | None => live (drop i entries) = []
  | Some (j, callback) =>
      j < length entries /\ live (drop i entries) = callback :: live (drop (S j) entries)
  end.
Proof.
  unfold Set_next. pose proof (first_entry_live (drop i entries) i) as H.
  destruct (first_entry (drop i entries) i) as [[j c]|]; [|done].
  destruct H as (k & -> & Hk & Hlive). rewrite length_drop in Hk. split; [lia|].
  rewrite Hlive, drop_drop. by replace (i + S k) with (S (i + k)) by lia.
Qed.


Lemma step_notifies (a : action) (w : world) :
  notifies a = true ->
  exists s' : t,
    step a w = Some (notify (mkWorld s' (storage w) (loops w) (invoked w)))
    /\ subscribers s' = subscribers (state w).
Proof.
  destruct a; try done; intros _; cbn [step].
  - by eexists.
  - by eexists.
  - by eexists.
  - by eexists.
  - by eexists.
  - unfold loadFromStorage.
    destruct (getStorageItem_normal (storage w) STORAGE_KEY_LOCATION) as [v1 ->].
    destruct (getStorageItem_normal (storage w) STORAGE_KEY_UNIT) as [v2 ->].
    cbn [bind]. by eexists.
Qed.



Lemma elem_of_live (callback : Subscriber) (entries : list (option Subscriber)) :
  callback ∈ live entries <-> Some callback ∈ entries.
Proof.
  unfold live. rewrite list_elem_of_omap. split.
  - by intros ([c|] & Hin & [= <-]).
  - intros Hin. by exists (Some callback).
Qed.

Lemma live_Set_delete_sublist (callback : Subscriber) (entries : list (option Subscriber)) :
  live (Set_delete callback entries) `sublist_of` live entries.
Proof.
  unfold live, Set_delete. induction entries as [|[c|] rest IH]; cbn.
  - done.
  - case_bool_decide; cbn; [by apply sublist_cons|by apply sublist_skip].
  - done.
Qed.

Lemma Set_next_lt (entries : list (option Subscriber)) (i j : nat) (callback : Subscriber) :
  Set_next entries i = Some (j, callback) -> j < length entries.
Proof.
  intros H. pose proof (Set_next_live entries i) as H'. rewrite H in H'. tauto.
Qed.

(** The callbacks of the set are distinct, and each loop's iterator is
    within the entry list. *)
Definition set_ok (w : world) : Prop :=
  NoDup (live (subscribers (state w)))
  /\ Forall (fun i => i <= length (subscribers (state w))) (loops w).

Lemma next_iteration_ok (w : world) : set_ok w -> set_ok (next_iteration w).
Proof.
  unfold set_ok, next_iteration. intros [Hnd Hl].
  destruct (loops w) as [|i outer] eqn:Hloops; [by rewrite Hloops|].
  apply Forall_cons in Hl as [Hi Houter].
  destruct (Set_next _ _) as [[j c]|] eqn:Hnext; cbn; [|done].
  split; [done|]. apply Forall_cons. split; [|done].
  apply Set_next_lt in Hnext. lia.
Qed.

Lemma notify_ok (w : world) : set_ok w -> set_ok (notify w).
Proof.
  intros [Hnd Hl]. unfold notify. apply next_iteration_ok. split; [done|].
  cbn. apply Forall_cons. split; [lia|done].
Qed.

Lemma step_ok (a : action) (w w' : world) : step a w = Some w' -> set_ok w -> set_ok w'.
Proof.
  intros Hstep Hw. destruct (notifies a) eqn:Ha.
  - destruct (step_notifies a w Ha) as (s' & Hs & Hsubs). rewrite Hs in Hstep.
    injection Hstep as <-. apply notify_ok. destruct Hw as [Hnd Hl].
    split; cbn; by rewrite Hsubs.
  - destruct a; try done; cbn [step] in Hstep.
    + injection Hstep as <-. destruct Hw as [Hnd Hl]. unfold set_ok, subscribe, Set_add; cbn.
      case_bool_decide as Hin; [done|]. split.
      * unfold live. rewrite omap_app. cbn. apply NoDup_app. split; [done|].
        split; [|apply NoDup_singleton].
        intros c Hc ->%list_elem_of_singleton. by apply elem_of_live in Hc.
      * eapply Forall_impl; [done|]. cbn. intros i Hi. rewrite length_app. lia.
    + injection Hstep as <-. destruct Hw as [Hnd Hl]. unfold set_ok, unsubscribe; cbn. split.
      * eapply sublist_NoDup; [done|apply live_Set_delete_sublist].
      * unfold Set_delete. by rewrite length_map.
    + destruct (saveToStorage_normal w) as [ls' Hs]. rewrite Hs in Hstep.
      by injection Hstep as <-.
    + destruct (loops w) eqn:Hl; [done|]. injection Hstep as <-. by apply next_iteration_ok.
    + destruct (loops w) eqn:Hl; [done|]. injection Hstep as <-. by apply next_iteration_ok.
Qed.

(** In every state reached from the initial one the set holds each
    callback once and each iterator is within the entry list; subscribing
    a callback that is subscribed already changes nothing. *)
Theorem subscribers_form_a_set :
  (forall (ls : Storage.localStorage) (actions : list action) (w : world),
     run actions (boot ls) = Some w -> set_ok w)
  /\ (forall (callback : Subscriber) (w : world),
     subscribe callback (subscribe callback w) = subscribe callback w).
Proof.
  split.
  - intros ls actions. assert (set_ok (boot ls)) as H0.
    { split; cbn; [apply NoDup_nil_2|done]. }
    revert H0. generalize (boot ls). induction actions as [|a rest IH]; cbn; intros w Hw w' Hrun.
    + by injection Hrun as <-.
    + destruct (step a w) as [w1|] eqn:Hstep; [|done]. eauto using step_ok.
  - intros callback w. unfold subscribe, Set_add; cbn.
    destruct (decide (Some callback ∈ subscribers (state w))) as [Hin|Hin].
    + by rewrite !(bool_decide_eq_true_2 _ Hin).
    + rewrite (bool_decide_eq_false_2 _ Hin).
      rewrite bool_decide_eq_true_2; [done|]. apply elem_of_app. right. left.
Qed.

End Notification.



Lemma subscribers_form_a_set_witness :
  exists w : AppState.world,
    AppState.run [AppState.Subscribe 3; AppState.Subscribe 3; AppState.SetLoading true;
                  AppState.Unsubscribe 3; AppState.Subscribe 3; AppState.CallbackReturns]
      (AppState.boot empty_store) = Some w
    /\ set_ok w.
Proof.
  eexists. split; [vm_compute; reflexivity|].
  apply (proj1 subscribers_form_a_set empty_store
           [AppState.Subscribe 3; AppState.Subscribe 3; AppState.SetLoading true;
            AppState.Unsubscribe 3; AppState.Subscribe 3; AppState.CallbackReturns]).
  vm_compute; reflexivity.
Defined.

(* ================================================================== *)
(** * Further properties of the observable state: persistence *)
(* ================================================================== *)

Section Persistence.

Import AppState.

Definition LOCATION_ITEM : string := Storage.STORAGE_PREFIX +:+ STORAGE_KEY_LOCATION.
Definition UNIT_ITEM : string := Storage.STORAGE_PREFIX +:+ STORAGE_KEY_UNIT.

Lemma items_differ : LOCATION_ITEM <> UNIT_ITEM.
Proof. intros H. vm_compute in H. discriminate H. Qed.

(** The store can be read and takes every write. *)
Definition accepting (ls : Storage.localStorage) : Prop :=
  Storage.denied ls = false /\ forall (k : string) (t : Storage.text), Storage.fits ls k t = true.

Lemma setStorageItem_frame (ls : Storage.localStorage) (key : string) (v : Js.value) :
  exists ls' : Storage.localStorage,
    Storage.setStorageItem ls key v = Normal ls'
    /\ Storage.denied ls' = Storage.denied ls
    /\ Storage.fits ls' = Storage.fits ls
    /\ (forall k : string,
          k <> Storage.STORAGE_PREFIX +:+ key -> Storage.items ls' !! k = Storage.items ls !! k)
    /\ (accepting ls ->
        Storage.items ls' !! (Storage.STORAGE_PREFIX +:+ key) = Some (Storage.JSON_stringify v)).
Proof.
  unfold Storage.setStorageItem, Storage.setItem, accepting.
  destruct (Storage.denied ls) eqn:Hd; cbn [try_catch].
  { exists ls. repeat split; try done. by intros [? _]. }
  destruct (Storage.fits ls _ _) eqn:Hf; cbn [try_catch].
  - eexists. split; [done|]. cbn. repeat split; try done.
    + intros k Hk. by apply lookup_insert_ne.
    + intros _. apply lookup_insert_eq.
  - exists ls. repeat split; try done. intros [_ Hall]. by rewrite Hall in Hf.
Qed.

(** [saveToStorage] returns normally, changes nothing of the state
    object, writes no item other than the location and the unit, and
    does not write the location item while no location is selected. *)
Theorem saveToStorage_frame (w : world) :
  exists w' : world,
    saveToStorage w = Normal w'
    /\ state w' = state w /\ loops w' = loops w /\ invoked w' = invoked w
    /\ (forall k : string,
          k <> LOCATION_ITEM -> k <> UNIT_ITEM ->
          Storage.items (storage w') !! k = Storage.items (storage w) !! k)
    /\ (Js.truthy (currentLocation (state w)) = false ->
        Storage.items (storage w') !! LOCATION_ITEM = Storage.items (storage w) !! LOCATION_ITEM).
Proof.
  unfold saveToStorage.
  destruct (Js.truthy (currentLocation (state w))) eqn:Ht.
  - destruct (setStorageItem_frame (storage w) STORAGE_KEY_LOCATION (currentLocation (state w)))
      as (ls1 & -> & _ & _ & H1 & _). cbn [bind].
    destruct (setStorageItem_frame ls1 STORAGE_KEY_UNIT (unit_value (temperatureUnit (state w))))
      as (ls2 & -> & _ & _ & H2 & _). cbn [bind].
    eexists. split; [done|]. cbn. repeat split; try done.
    intros k Hl Hu. by rewrite H2, H1.
  - cbn [bind].
    destruct (setStorageItem_frame (storage w) STORAGE_KEY_UNIT
                (unit_value (temperatureUnit (state w)))) as (ls2 & -> & _ & _ & H2 & _).
    cbn [bind]. eexists. split; [done|]. cbn. repeat split; try done.
    + intros k Hl Hu. by rewrite H2.
    + intros _. rewrite H2; [done|]. apply items_differ.
Qed.

(** What [saveToStorage] leaves in a store that takes every write. *)
Lemma saveToStorage_accepting (w : world) :
  accepting (storage w) ->
  exists w' : world,
    saveToStorage w = Normal w'
    /\ state w' = state w /\ loops w' = loops w /\ invoked w' = invoked w
    /\ accepting (storage w')
    /\ Storage.items (storage w') !! UNIT_ITEM
       = Some (Storage.Json (unit_value (temperatureUnit (state w))))
    /\ (Js.truthy (currentLocation (state w)) = true ->
        Storage.items (storage w') !! LOCATION_ITEM
        = Some (Storage.JSON_stringify (currentLocation (state w)))).
Proof.
  intros Hacc. unfold saveToStorage.
  destruct (Js.truthy (currentLocation (state w))) eqn:Ht.
  - destruct (setStorageItem_frame (storage w) STORAGE_KEY_LOCATION (currentLocation (state w)))
      as (ls1 & -> & Hd1 & Hf1 & _ & H1). cbn [bind].
    assert (accepting ls1) as Hacc1.
    { destruct Hacc as [Hd Hf]. split; [by rewrite Hd1|by rewrite Hf1]. }
    destruct (setStorageItem_frame ls1 STORAGE_KEY_UNIT (unit_value (temperatureUnit (state w))))
      as (ls2 & -> & Hd2 & Hf2 & H2 & H2'). cbn [bind].
    eexists. split; [done|]. cbn. repeat split; try done.
    + destruct Hacc1 as [Hd _]. by rewrite Hd2.
    + destruct Hacc1 as [_ Hf]. by rewrite Hf2.
    + unfold UNIT_ITEM. rewrite H2' by done. unfold Storage.JSON_stringify.
      by rewrite JSON_value_unit.
    + intros _. rewrite H2; [by apply H1|]. apply items_differ.
  - cbn [bind].
    destruct (setStorageItem_frame (storage w) STORAGE_KEY_UNIT
                (unit_value (temperatureUnit (state w)))) as (ls2 & -> & Hd2 & Hf2 & H2 & H2').
    cbn [bind]. eexists. split; [done|]. cbn. repeat split; try done.
    + destruct Hacc as [Hd _]. by rewrite Hd2.
    + destruct Hacc as [_ Hf]. by rewrite Hf2.
    + unfold UNIT_ITEM. rewrite H2' by done. unfold Storage.JSON_stringify.
      by rewrite JSON_value_unit.
Qed.

(** A location that [loadFromStorage] takes: truthy, with a truthy name
    and a truthy country. *)
Definition restorable (location : Js.value) : bool :=
  Js.truthy location && Js.truthy_opt (Js.prop location "name")
  && Js.truthy_opt (Js.prop location "country").

Lemma restorable_written_truthy (location : Js.value) :
  restorable (Storage.JSON_value location) = true -> Js.truthy location = true.
Proof.
  unfold restorable. destruct location as [|b|n|s|items|fields]; cbn [Storage.JSON_value]; try done.
  - by rewrite andb_false_r.
  - unfold Storage.JSON_number. destruct (PrimFloat.classify n); cbn [Js.prop Js.truthy_opt];
      by rewrite ?andb_false_r.
  - by rewrite andb_false_r.
Qed.

(** What [saveToStorage] writes into a store that takes every write,
    [loadFromStorage] restores into any state over that store: the unit
    always; the location as [JSON.stringify] wrote it, with [null] for
    each NaN and infinity and [0] for each negative zero, when that has a
    name and a country, hence the location itself when it has a name and
    a country and holds no such number; and when what was written has no
    name or no country the location of that state is kept. *)
Theorem save_then_load_restores (w : world) :
  accepting (storage w) ->
  exists w1 : world,
    saveToStorage w = Normal w1
    /\ forall w2 : world,
         storage w2 = storage w1 ->
         exists w3 : world,
           loadFromStorage w2 = Normal w3
           /\ temperatureUnit (state w3) = temperatureUnit (state w)
           /\ (restorable (Storage.JSON_value (currentLocation (state w))) = true ->
               currentLocation (state w3) = Storage.JSON_value (currentLocation (state w)))
           /\ (restorable (currentLocation (state w)) = true ->
               Storage.writable (currentLocation (state w)) = true ->
               currentLocation (state w3) = currentLocation (state w))
           /\ (Js.truthy (currentLocation (state w)) = true ->
               restorable (Storage.JSON_value (currentLocation (state w))) = false ->
               currentLocation (state w3) = currentLocation (state w2)).
Proof.
  intros Hacc.
  destruct (saveToStorage_accepting w Hacc) as (w1 & Hsave & _ & _ & _ & [Hd _] & Hu & Hl).
  exists w1. split; [done|]. intros w2 Hst.
  assert (Storage.getStorageItem (storage w2) STORAGE_KEY_UNIT
          = Normal (unit_value (temperatureUnit (state w)))) as Hgu.
  { apply getStorageItem_stored. rewrite Hst. by split. }
  destruct (getStorageItem_normal (storage w2) STORAGE_KEY_LOCATION) as [v1 Hgl].
  destruct (loadFromStorage_result w2 v1 _ Hgl Hgu) as (w3 & Hload & _ & Hloc & Hunit).
  exists w3. split; [done|]. split.
  { rewrite Hunit. by destruct (temperatureUnit (state w)). }
  assert (Js.truthy (currentLocation (state w)) = true ->
          v1 = Storage.JSON_value (currentLocation (state w))) as Hread.
  { intros Ht.
    rewrite (getStorageItem_stored (storage w2) STORAGE_KEY_LOCATION
               (Storage.JSON_value (currentLocation (state w)))) in Hgl; [by injection Hgl|].
    rewrite Hst. split; [done|]. by apply Hl. }
  assert (restorable (Storage.JSON_value (currentLocation (state w))) = true ->
          currentLocation (state w3) = Storage.JSON_value (currentLocation (state w))) as Hback.
  { intros Hr. rewrite Hloc, (Hread (restorable_written_truthy _ Hr)).
    unfold restorable in Hr. by rewrite Hr. }
  split; [done|]. split.
  - intros Hr Hw. rewrite <- (JSON_value_writable _ Hw).
    apply Hback. by rewrite (JSON_value_writable _ Hw).
  - intros Ht Hr. rewrite Hloc, (Hread Ht). unfold restorable in Hr. by rewrite Hr.
Qed.

End Persistence.

(** A state whose location has a latitude that is not a number. *)
Definition nowhere : LocationSuggestion.t :=
  LocationSuggestion.mk "Paris" "France" "Ile-de-France" nan 2.375%float.

Lemma save_then_load_restores_witness :
  let w := AppState.mkWorld
             (AppState.mk (LocationSuggestion.to_value nowhere) None false None F [])
             empty_store [] [] in
  exists w1 w3 : AppState.world,
    AppState.saveToStorage w = Normal w1
    /\ AppState.loadFromStorage (AppState.boot (AppState.storage w1)) = Normal w3
    /\ AppState.temperatureUnit (AppState.state w3) = F
    /\ AppState.currentLocation (AppState.state w3)
       = Js.Obj [("name", Js.Str "Paris"); ("country", Js.Str "France");
                 ("region", Js.Str "Ile-de-France"); ("lat", Js.Null);
                 ("lon", Js.Num 2.375%float)].
Proof.
  intros w.
  destruct (save_then_load_restores w (conj eq_refl (fun _ _ => eq_refl)))
    as (w1 & Hsave & Hload).
  destruct (Hload (AppState.boot (AppState.storage w1)) eq_refl) as (w3 & H3 & Hu & Hl & _).
  exists w1, w3. split; [exact Hsave|]. split; [exact H3|]. split; [exact Hu|].
  apply Hl. reflexivity.
Defined.

(* ================================================================== *)
(** * Further properties of the panels *)
(* ================================================================== *)

Section Panels.

Local Open Scope float_scope.

Definition other_unit (u : TemperatureUnit) : TemperatureUnit :=
  match u with C => F | F => C end.

(** The temperature in a unit, as the two panels compute it. *)
Definition in_unit (u : TemperatureUnit) (celsius : Js.number) : Js.number :=
  match u with C => celsius | F => celsius * 9 / 5 + 32 end.

(** Toggling the unit of the current-conditions panel while it shows an
    error message or the loading skeleton replaces that by the snapshot
    rendered last, in the other unit; a panel that never rendered a
    snapshot only changes its unit. *)
Theorem toggle_rerenders_last_snapshot (this : CurrentWeather.t) :
  (forall (data : WeatherData.t) (message : string),
     let expected :=
       CurrentWeather.Weather
         (Js.Math_round (in_unit (other_unit (CurrentWeather.unit this))
                           (CurrentConditions.temperature (WeatherData.current data))))
         (other_unit (CurrentWeather.unit this))
         (WeatherData.location data) (WeatherData.current data) in
     CurrentWeather.container
       (CurrentWeather.toggleTemperatureUnit
          (CurrentWeather.showError message (CurrentWeather.render data this))) = expected
     /\ CurrentWeather.container
          (CurrentWeather.toggleTemperatureUnit
             (CurrentWeather.showLoading (CurrentWeather.render data this))) = expected)
  /\ (CurrentWeather.currentData this = None ->
      CurrentWeather.toggleTemperatureUnit this
      = CurrentWeather.mk (CurrentWeather.container this)
          (other_unit (CurrentWeather.unit this)) None).
Proof.
  split.
  - intros data message. destruct this as [m [] kept]; by split.
  - destruct this as [m u [d|]]; [done|]. by intros _.
Qed.

Lemma render_nonempty
    (forecast : list DayForecast.t) (unit : TemperatureUnit) (this : WeatherForecast.t) :
  forecast <> [] ->
  WeatherForecast.render forecast unit this
  = WeatherForecast.mk
      (WeatherForecast.Cards
         (imap (WeatherForecast.renderCard
                  (WeatherForecast.mk (WeatherForecast.container this) unit forecast))
            forecast))
      unit forecast.
Proof. by destruct forecast. Qed.

(** [render] shows the empty-state message for an empty forecast and no
    card; otherwise one card per day, in order: the card at a position
    carries that position, the label Today at position 0 and the weekday
    of its date elsewhere, the unit given, and the rounded maximum and
    minimum of the day in that unit; clicking it selects that day. *)
Theorem forecast_render_cards
    (forecast : list DayForecast.t) (unit : TemperatureUnit) (this : WeatherForecast.t) :
  let after := WeatherForecast.render forecast unit this in
  WeatherForecast.currentForecast after = forecast
  /\ (forecast = [] -> WeatherForecast.container after = WeatherForecast.NoData)
  /\ (forecast <> [] ->
      exists cards : list WeatherForecast.card,
        WeatherForecast.container after = WeatherForecast.Cards cards
        /\ length cards = length forecast
        /\ forall (i : nat) (d : DayForecast.t),
             forecast !! i = Some d ->
             exists c : WeatherForecast.card,
               cards !! i = Some c
               /\ WeatherForecast.index c = i
               /\ WeatherForecast.day c
                  = (if bool_decide (i = 0%nat) then WeatherForecast.Today
                     else WeatherForecast.Weekday (DayForecast.date d))
               /\ WeatherForecast.dateStr c = DayForecast.date d
               /\ WeatherForecast.unitLabel c = unit
               /\ WeatherForecast.high c = Js.Math_round (in_unit unit (DayForecast.maxTemp d))
               /\ WeatherForecast.low c = Js.Math_round (in_unit unit (DayForecast.minTemp d))
               /\ WeatherForecastEvents.clickCard i after = Some (Some d, i)).
Proof.
  cbn zeta. split; [by destruct forecast|]. split; [by intros ->|].
  intros Hne. rewrite (render_nonempty forecast unit this Hne). eexists. split; [done|]. split; [by rewrite length_imap|].
  intros i d Hi. eexists. split; [by rewrite list_lookup_imap, Hi|].
  repeat split.
  - by destruct i.
  - unfold WeatherForecastEvents.clickCard. cbn. rewrite length_imap.
    rewrite bool_decide_eq_true_2; [by rewrite Hi|]. by eapply lookup_lt_Some.
Qed.

(** The cards on display always belong to the forecast the panel keeps. *)
Definition cards_current (this : WeatherForecast.t) : Prop :=
  forall cards : list WeatherForecast.card,
    WeatherForecast.container this = WeatherForecast.Cards cards ->
    length cards = length (WeatherForecast.currentForecast this)
    /\ forall (i : nat) (c : WeatherForecast.card),
         cards !! i = Some c ->
         exists d : DayForecast.t,
           WeatherForecast.currentForecast this !! i = Some d
           /\ WeatherForecast.dateStr c = DayForecast.date d
           /\ WeatherForecast.condition c = DayForecast.condition d.

Lemma perform_cards_current (this : WeatherForecast.t) (op : WeatherForecastEvents.operation) :
  cards_current (WeatherForecastEvents.perform this op).
Proof.
  destruct op as [forecast unit|]; intros cards Hc; [|done].
  unfold WeatherForecastEvents.perform in *.
  destruct (decide (forecast = [])) as [->|Hne]; [done|].
  rewrite (render_nonempty forecast unit this Hne) in *.
  cbn [WeatherForecast.container WeatherForecast.currentForecast] in *.
  injection Hc as <-. split; [by rewrite length_imap|].
  intros i c. rewrite list_lookup_imap.
  destruct (forecast !! i) as [d|] eqn:Hi; [|done].
  intros [= <-]. by exists d.
Qed.

(** Whatever sequence of renders and loading skeletons the panel went
    through, a click on a card it displays selects the day that card
    shows, with the card's position. *)
Theorem forecast_click_selects_shown_day
    (ops : list WeatherForecastEvents.operation)
    (cards : list WeatherForecast.card) (i : nat) (c : WeatherForecast.card) :
  let this := foldl WeatherForecastEvents.perform WeatherForecast.new ops in
  WeatherForecast.container this = WeatherForecast.Cards cards ->
  cards !! i = Some c ->
  exists d : DayForecast.t,
    WeatherForecastEvents.clickCard i this = Some (Some d, i)
    /\ WeatherForecast.dateStr c = DayForecast.date d
    /\ WeatherForecast.condition c = DayForecast.condition d.
Proof.
  cbn zeta. intros Hc Hi.
  assert (cards_current (foldl WeatherForecastEvents.perform WeatherForecast.new ops)) as Hcur.
  { destruct ops as [|op ops _] using rev_ind; [done|].
    rewrite foldl_app. cbn. apply perform_cards_current. }
  destruct (Hcur cards Hc) as [Hlen Hall]. destruct (Hall i c Hi) as (d & Hd & H1 & H2).
  exists d. split; [|done].
  unfold WeatherForecastEvents.clickCard. rewrite Hc, Hd.
  rewrite bool_decide_eq_true_2; [done|]. by eapply lookup_lt_Some.
Qed.

End Panels.

Definition june_1 : DayForecast.t :=
  DayForecast.mk "2024-06-01" 22.5%float 12.25%float "Sunny" "Sunny" "//cdn/113.png" 55%float 14.5%float.

Definition june_2 : DayForecast.t :=
  DayForecast.mk "2024-06-02" 18%float 11%float "Rain" "Rain" "//cdn/296.png" 80%float 22%float.

Lemma forecast_click_selects_shown_day_witness :
  let ops := [WeatherForecastEvents.Render [] C; WeatherForecastEvents.ShowLoading;
              WeatherForecastEvents.Render [june_1; june_2] F] in
  exists d : DayForecast.t,
    WeatherForecastEvents.clickCard 1
      (foldl WeatherForecastEvents.perform WeatherForecast.new ops) = Some (Some d, 1)
    /\ "2024-06-02" = DayForecast.date d
    /\ "Rain" = DayForecast.condition d.
Proof.
  intros ops.
  refine (forecast_click_selects_shown_day ops
            (imap (WeatherForecast.renderCard
                     (WeatherForecast.mk WeatherForecast.Skeleton F [june_1; june_2]))
               [june_1; june_2])
            1
            (WeatherForecast.renderCard
               (WeatherForecast.mk WeatherForecast.Skeleton F [june_1; june_2]) 1 june_2)
            _ _); reflexivity.
Defined.

Lemma forecast_render_cards_witness :
  WeatherForecast.container (WeatherForecast.render [] F WeatherForecast.new)
  = WeatherForecast.NoData.
Proof.
  apply (proj1 (proj2 (forecast_render_cards [] F WeatherForecast.new))). reflexivity.
Defined.

(* ================================================================== *)
(** * Further properties of the location search *)
(* ================================================================== *)

Section SearchEvents.

Import LocationSearch.

Variable String_trim : string -> string.
Variable String_length : string -> nat.
Variable Number_toString : Js.number -> string.
Variable svc : WeatherService.t.
Variable axios : Axios.t.

Local Abbreviation handle := (SearchBox.handle String_trim String_length Number_toString svc axios).

(** The component after a sequence of events. *)
Definition after_events (events : list SearchBox.event) : SearchBox.t :=
  foldl (fun this e => handle e this) SearchBox.new events.

(** [searchLocations] of the component leaves the input alone and
    dispatches nothing; it ends with the dropdown open and not loading:
    on the buttons of the suggestions found, on the no-locations message
    when nothing was found, and on an error message, the suggestions
    dropped, when the search failed. *)
Theorem search_outcome (query : string) (this : LocationSearch.t) :
  let after := LocationSearch.searchLocations svc axios query this in
  inputValue after = inputValue this
  /\ inputDisabled after = inputDisabled this
  /\ dispatched after = dispatched this
  /\ isLoading after = false
  /\ dropdownHidden after = false
  /\ match WeatherService.searchLocations svc axios query with
     | Normal [] => suggestions after = [] /\ dropdownEl after = NoLocations
     | Normal (first :: others) =>
         suggestions after = first :: others
         /\ dropdownEl after = SuggestionButtons (first :: others)
     | Throw _ =>
         suggestions after = []
         /\ dropdownEl after = ErrorText "Failed to search locations. Please try again."
     end.
Proof.
  cbn zeta. unfold LocationSearch.searchLocations.
  destruct (WeatherService.searchLocations svc axios query) as [[|first others]|e];
    by destruct (suggestions this).
Qed.

(** When the device answers and the coordinate search finds candidates,
    the first candidate is the location: the input reads its name and
    country and is enabled, one event is dispatched with it, and the
    dropdown is as it was. *)
Theorem geolocation_success
    (position : GeolocationCoordinates.t) (this : LocationSearch.t)
    (first : LocationSuggestion.t) (others : list LocationSuggestion.t) :
  WeatherService.searchLocations svc axios (coordinate_query Number_toString position)
  = Normal (first :: others) ->
  let after := handleGeolocation Number_toString (Some (Normal position)) svc axios this in
  inputValue after
  = LocationSuggestion.name first +:+ ", " +:+ LocationSuggestion.country first
  /\ inputDisabled after = false
  /\ isLoading after = false
  /\ dispatched after = first :: dispatched this
  /\ dropdownEl after = dropdownEl this
  /\ dropdownHidden after = dropdownHidden this
  /\ suggestions after = suggestions this.
Proof.
  intros H. unfold handleGeolocation, coordinate_query in *.
  cbn [await bind try_catch]. rewrite H. by cbn.
Qed.

(** The buttons in the dropdown are the suggestions of the component. *)
Definition buttons_current (s : LocationSearch.t) : Prop :=
  forall buttons : list LocationSuggestion.t,
    dropdownEl s = SuggestionButtons buttons -> buttons = suggestions s.

(** Every pending timeout is the one [debounceTimer] names. *)
Definition one_timeout (this : SearchBox.t) : Prop :=
  forall (id : nat) (query : string),
    SearchBox.timeouts this !! id = Some query -> SearchBox.debounceTimer this = Some id.

Lemma searchLocations_buttons (query : string) (s : LocationSearch.t) :
  buttons_current (LocationSearch.searchLocations svc axios query s).
Proof.
  intros buttons Hb. unfold LocationSearch.searchLocations in *.
  destruct (WeatherService.searchLocations svc axios query) as [[|first others]|e];
    cbn in *; try done.
  by injection Hb as <-.
Qed.

Lemma handleGeolocation_buttons (device : geolocation) (s : LocationSearch.t) :
  buttons_current s ->
  buttons_current (handleGeolocation Number_toString device svc axios s).
Proof.
  intros Hs buttons. unfold handleGeolocation.
  destruct device as [[position|e]|]; cbn [await bind try_catch]; [|done..].
  destruct (WeatherService.searchLocations svc axios _) as [[|first others]|e];
    cbn; [done| |done].
  apply Hs.
Qed.

Lemma cleared (this : SearchBox.t) :
  one_timeout this ->
  SearchBox.timeouts
    (match SearchBox.debounceTimer this with
     | Some id => SearchBox.clearTimeout id this
     | None => this
     end) = ∅.
Proof.
  intros Hone. apply map_eq. intros id. rewrite lookup_empty.
  destruct (SearchBox.debounceTimer this) as [old|] eqn:Hold; cbn.
  - destruct (decide (old = id)) as [->|Hne]; [by rewrite lookup_delete_eq|].
    rewrite lookup_delete_ne by done.
    destruct (SearchBox.timeouts this !! id) as [q|] eqn:Hq; [|done].
    apply Hone in Hq. congruence.
  - destruct (SearchBox.timeouts this !! id) as [q|] eqn:Hq; [|done].
    apply Hone in Hq. congruence.
Qed.

(** What [handleInput] leaves, from a component with at most its own
    timeout pending. *)
Lemma handleInput_result (this : SearchBox.t) :
  one_timeout this ->
  let query := String_trim (inputValue (SearchBox.search this)) in
  let after := SearchBox.handleInput String_trim String_length this in
  if (String_length query <? 2)%nat then
    SearchBox.timeouts after = ∅
    /\ SearchBox.search after = hideDropdown (SearchBox.search this)
  else
    SearchBox.timeouts after = {[ SearchBox.next_timeout this := query ]}
    /\ SearchBox.debounceTimer after = Some (SearchBox.next_timeout this)
    /\ SearchBox.search after = SearchBox.search this.
Proof.
  intros Hone. cbn zeta. unfold SearchBox.handleInput.
  pose proof (cleared this Hone) as Hc.
  destruct (String_length _ <? 2)%nat.
  - split; [by destruct (SearchBox.debounceTimer this)|].
    by destruct (SearchBox.debounceTimer this).
  - cbn [SearchBox.timeouts SearchBox.debounceTimer SearchBox.search].
    rewrite Hc, insert_empty.
    destruct (SearchBox.debounceTimer this); by repeat split.
Qed.

Lemma handle_invariants (e : SearchBox.event) (this : SearchBox.t) :
  buttons_current (SearchBox.search this) /\ one_timeout this ->
  buttons_current (SearchBox.search (handle e this)) /\ one_timeout (handle e this).
Proof.
  intros [Hb Ht]. destruct e as [value|id| |inside|index|device]; cbn [SearchBox.handle].
  - set (typed := SearchBox.with_search _ this).
    assert (one_timeout typed) as Htyped by done.
    pose proof (handleInput_result typed Htyped) as H. cbn zeta in H.
    destruct (String_length _ <? 2)%nat.
    + destruct H as [Hempty Hs]. split.
      * rewrite Hs. intros buttons. apply Hb.
      * intros i q Hq. rewrite Hempty in Hq. by rewrite lookup_empty in Hq.
    + destruct H as (Hone & Hd & Hs). split.
      * rewrite Hs. intros buttons. apply Hb.
      * intros i q Hq. rewrite Hone in Hq. rewrite Hd.
        apply lookup_singleton_Some in Hq as [<- _]. done.
  - destruct (SearchBox.timeouts this !! id) as [query|] eqn:Hid; [|done]. split.
    + apply searchLocations_buttons.
    + intros id' q Hq. cbn in *.
      destruct (decide (id = id')) as [->|Hne]; [by rewrite lookup_delete_eq in Hq|].
      rewrite lookup_delete_ne in Hq by done. by apply Ht in Hq.
  - split; [|done]. unfold SearchBox.handleFocus. cbn.
    destruct (suggestions (SearchBox.search this)); [done|]. intros buttons. apply Hb.
  - split; [|done]. unfold SearchBox.handleClickOutside. cbn.
    destruct inside; [done|]. intros buttons. apply Hb.
  - destruct (dropdownEl (SearchBox.search this)) as [| | |buttons|] eqn:Hd; try done.
    case_bool_decide; [|done]. unfold SearchBox.clickSuggestion.
    destruct (suggestions (SearchBox.search this) !! index) as [location|]; [|done].
    split; [|done]. cbn. intros buttons'. apply Hb.
  - split; [|done]. cbn. by apply handleGeolocation_buttons.
Qed.

Lemma after_events_invariants (events : list SearchBox.event) :
  buttons_current (SearchBox.search (after_events events)) /\ one_timeout (after_events events).
Proof.
  unfold after_events. induction events as [|e events IH] using rev_ind.
  - split; [done|]. intros id q Hq. cbn in Hq. by rewrite lookup_empty in Hq.
  - rewrite foldl_app. cbn [foldl]. by apply handle_invariants.
Qed.

(** Whatever came before, after a keystroke at most one timeout is
    pending.  When the trimmed text has fewer than two characters none is
    pending and the dropdown is closed; otherwise the one pending timeout
    carries the trimmed text, and when it fires the component searches
    for that text and nothing stays pending. *)
Theorem debounce_last_query_wins (events : list SearchBox.event) (value : string) :
  let after := handle (SearchBox.Typing value) (after_events events) in
  let query := String_trim value in
  ((String_length query < 2)%nat ->
   SearchBox.timeouts after = ∅ /\ dropdownHidden (SearchBox.search after) = true)
  /\ ((2 <= String_length query)%nat ->
      exists id : nat,
        SearchBox.timeouts after = {[ id := query ]}
        /\ SearchBox.debounceTimer after = Some id
        /\ SearchBox.search (handle (SearchBox.TimeoutFires id) after)
           = LocationSearch.searchLocations svc axios query (SearchBox.search after)
        /\ SearchBox.timeouts (handle (SearchBox.TimeoutFires id) after) = ∅).
Proof.
  cbn zeta. destruct (after_events_invariants events) as [_ Ht].
  set (before := after_events events) in *.
  cbn [SearchBox.handle].
  set (typed := SearchBox.with_search _ before).
  assert (one_timeout typed) as Htyped by done.
  pose proof (handleInput_result typed Htyped) as H. cbn zeta in H.
  change (inputValue (SearchBox.search typed)) with value in H.
  split.
  - intros Hshort. apply Nat.ltb_lt in Hshort. rewrite Hshort in H.
    destruct H as [-> ->]. done.
  - intros Hlong. apply Nat.ltb_ge in Hlong. rewrite Hlong in H.
    destruct H as (Hone & Hd & Hs). exists (SearchBox.next_timeout typed).
    split; [done|]. split; [done|].
    cbn [SearchBox.handle]. rewrite Hone, lookup_singleton_eq.
    cbn [SearchBox.search SearchBox.timeouts]. split; [done|].
    apply delete_singleton_eq.
Qed.

(** Whatever came before, a click on a suggestion button the dropdown
    displays selects the suggestion that button shows: the input reads
    its name and country, the dropdown is closed, and one event is
    dispatched with it. *)
Theorem suggestion_click_selects_shown
    (events : list SearchBox.event) (buttons : list LocationSuggestion.t)
    (index : nat) (shown : LocationSuggestion.t) :
  let this := after_events events in
  dropdownEl (SearchBox.search this) = SuggestionButtons buttons ->
  buttons !! index = Some shown ->
  let after := SearchBox.search (handle (SearchBox.ClickSuggestion index) this) in
  dispatched after = shown :: dispatched (SearchBox.search this)
  /\ inputValue after
     = LocationSuggestion.name shown +:+ ", " +:+ LocationSuggestion.country shown
  /\ dropdownHidden after = true
  /\ suggestions after = suggestions (SearchBox.search this).
Proof.
  cbn zeta. intros Hd Hi.
  destruct (after_events_invariants events) as [Hb _].
  pose proof (Hb buttons Hd) as ->.
  cbn [SearchBox.handle]. rewrite Hd.
  rewrite bool_decide_eq_true_2 by (by eapply lookup_lt_Some).
  unfold SearchBox.clickSuggestion. by rewrite Hi.
Qed.

End SearchEvents.

(** A transport whose searches find Paris. *)
Definition finds_paris : Axios.t :=
  Axios.mk (fun _ => Throw (NotAxiosError "unused"))
    (fun _ => Normal [ApiLocation.mk "Paris" "Ile-de-France" "France" 48.875%float 2.375%float]).

Lemma geolocation_success_witness :
  let after :=
    LocationSearch.handleGeolocation (fun _ => "0")
      (Some (Normal (LocationSearch.GeolocationCoordinates.mk 48.875%float 2.375%float)))
      demo_service finds_paris LocationSearch.new in
  LocationSearch.inputValue after = "Paris, France"
  /\ LocationSearch.inputDisabled after = false
  /\ LocationSearch.isLoading after = false
  /\ LocationSearch.dispatched after = [paris]
  /\ LocationSearch.dropdownEl after = LocationSearch.NoContent
  /\ LocationSearch.dropdownHidden after = true
  /\ LocationSearch.suggestions after = [].
Proof.
  refine (geolocation_success (fun _ => "0") demo_service finds_paris
            (LocationSearch.GeolocationCoordinates.mk 48.875%float 2.375%float)
            LocationSearch.new paris [] _).
  reflexivity.
Defined.

Lemma debounce_last_query_wins_witness :
  let typed :=
    SearchBox.handle (fun s => s) String.length (fun _ => "0") demo_service finds_paris
      (SearchBox.Typing "Lond")
      (after_events (fun s => s) String.length (fun _ => "0") demo_service finds_paris
         [SearchBox.Typing "Lon"]) in
  exists id : nat,
    SearchBox.timeouts typed = {[ id := "Lond" ]}
    /\ SearchBox.debounceTimer typed = Some id
    /\ SearchBox.search
         (SearchBox.handle (fun s => s) String.length (fun _ => "0") demo_service finds_paris
            (SearchBox.TimeoutFires id) typed)
       = LocationSearch.searchLocations demo_service finds_paris "Lond" (SearchBox.search typed)
    /\ SearchBox.timeouts
         (SearchBox.handle (fun s => s) String.length (fun _ => "0") demo_service finds_paris
            (SearchBox.TimeoutFires id) typed) = ∅.
Proof.
  refine (proj2 (debounce_last_query_wins (fun s => s) String.length (fun _ => "0")
                   demo_service finds_paris [SearchBox.Typing "Lon"] "Lond") _).
  cbn. lia.
Defined.

Lemma suggestion_click_selects_shown_witness :
  let this :=
    after_events (fun s => s) String.length (fun _ => "0") demo_service finds_paris
      [SearchBox.Typing "Par"; SearchBox.TimeoutFires 1] in
  let after :=
    SearchBox.search
      (SearchBox.handle (fun s => s) String.length (fun _ => "0") demo_service finds_paris
         (SearchBox.ClickSuggestion 0) this) in
  LocationSearch.dispatched after = paris :: LocationSearch.dispatched (SearchBox.search this)
  /\ LocationSearch.inputValue after = "Paris, France"
  /\ LocationSearch.dropdownHidden after = true
  /\ LocationSearch.suggestions after = LocationSearch.suggestions (SearchBox.search this).
Proof.
  refine (suggestion_click_selects_shown (fun s => s) String.length (fun _ => "0")
            demo_service finds_paris [SearchBox.Typing "Par"; SearchBox.TimeoutFires 1]
            [paris] 0 paris _ _); vm_compute; reflexivity.
Defined.

(* ================================================================== *)
(** * Further properties of the controller *)
(* ================================================================== *)

Section ControllerFlows.

Import AppState.

(** The state object after the assignments of a method. *)
Definition assigned (a : action) (w : world) : AppState.t :=
  match step a w with
  | Some w' => state w'
  | None => state w
  end.

(** The store after [saveToStorage] in a state. *)
Definition saved (s : AppState.t) (ls : Storage.localStorage) : Storage.localStorage :=
  match saveToStorage (mkWorld s ls [] []) with
  | Normal w => storage w
  | Throw _ => ls
  end.

Lemma saveToStorage_saved (w : world) :
  saveToStorage w
  = Normal (mkWorld (state w) (saved (state w) (storage w)) (loops w) (invoked w)).
Proof.
  unfold saved, saveToStorage. cbn [state storage loops invoked].
  destruct (Js.truthy (currentLocation (state w))).
  - destruct (setStorageItem_normal (storage w) STORAGE_KEY_LOCATION (currentLocation (state w)))
      as [ls1 ->]. cbn [bind].
    by destruct (setStorageItem_normal ls1 STORAGE_KEY_UNIT
                   (unit_value (temperatureUnit (state w)))) as [ls2 ->].
  - cbn [bind].
    by destruct (setStorageItem_normal (storage w) STORAGE_KEY_UNIT
                   (unit_value (temperatureUnit (state w)))) as [ls2 ->].
Qed.

Lemma saved_accepting (s : AppState.t) (ls : Storage.localStorage) :
  accepting ls ->
  accepting (saved s ls)
  /\ Storage.items (saved s ls) !! UNIT_ITEM = Some (Storage.Json (unit_value (temperatureUnit s)))
  /\ (Js.truthy (currentLocation s) = true ->
      Storage.items (saved s ls) !! LOCATION_ITEM
      = Some (Storage.JSON_stringify (currentLocation s))).
Proof.
  intros Hacc.
  destruct (saveToStorage_accepting (mkWorld s ls [] []) Hacc)
    as (w' & Hs & _ & _ & _ & Hacc' & Hu & Hl).
  unfold saved. by rewrite Hs.
Qed.

Lemma saved_location_untouched (s : AppState.t) (ls : Storage.localStorage) :
  Js.truthy (currentLocation s) = false ->
  Storage.items (saved s ls) !! LOCATION_ITEM = Storage.items ls !! LOCATION_ITEM.
Proof.
  intros Ht. unfold saved, saveToStorage. cbn [state storage loops invoked].
  rewrite Ht. cbn [bind].
  destruct (setStorageItem_frame ls STORAGE_KEY_UNIT (unit_value (temperatureUnit s)))
    as (ls2 & -> & _ & _ & H2 & _).
  cbn. apply H2, items_differ.
Qed.

(** A call of a notifying method by the controller: the assignments,
    then the save of its subscriber. *)
Lemma call_notifies (a : action) (w : world) :
  wired w ->
  notifies a = true ->
  App.call a w
  = Some (mkWorld (assigned a w) (saved (assigned a w) (storage w)) []
            (App.stateSubscriber :: invoked w))
  /\ subscribers (assigned a w) = subscribers (state w).
Proof.
  intros [Hsubs Hloops] Ha.
  destruct (step_notifies a w Ha) as (s' & Hstep & Hs').
  unfold assigned. rewrite call_unfold, Hstep, state_notify. cbn [state].
  split; [|done].
  unfold notify, next_iteration. cbn [loops state storage invoked].
  rewrite Hs', Hsubs, Hloops. cbn [Set_next drop first_entry].
  cbn [run step]. rewrite saveToStorage_saved. cbn [state storage loops invoked].
  unfold next_iteration. cbn [loops state storage invoked].
  by rewrite Hs', Hsubs.
Qed.

Lemma assigned_setLocation (location : Js.value) (w : world) :
  assigned (SetLocation location) w
  = AppState.mk location (weatherData (state w)) (isLoading (state w)) None
      (temperatureUnit (state w)) (subscribers (state w)).
Proof. unfold assigned. cbn [step]. unfold setLocation. by rewrite state_notify. Qed.

Lemma assigned_setWeatherData (data : WeatherData.t) (w : world) :
  assigned (SetWeatherData data) w
  = AppState.mk (currentLocation (state w)) (Some data) (isLoading (state w)) None
      (temperatureUnit (state w)) (subscribers (state w)).
Proof. unfold assigned. cbn [step]. unfold setWeatherData. by rewrite state_notify. Qed.

Lemma assigned_setLoading (loading : bool) (w : world) :
  assigned (SetLoading loading) w
  = AppState.mk (currentLocation (state w)) (weatherData (state w)) loading
      (if loading then None else error (state w))
      (temperatureUnit (state w)) (subscribers (state w)).
Proof. unfold assigned. cbn [step]. unfold setLoading. by rewrite state_notify. Qed.

Lemma assigned_setError (e : option string) (w : world) :
  assigned (SetError e) w
  = AppState.mk (currentLocation (state w)) (weatherData (state w)) false e
      (temperatureUnit (state w)) (subscribers (state w)).
Proof. unfold assigned. cbn [step]. unfold setError. by rewrite state_notify. Qed.

Lemma assigned_setTemperatureUnit (u : TemperatureUnit) (w : world) :
  assigned (SetTemperatureUnit u) w
  = AppState.mk (currentLocation (state w)) (weatherData (state w)) (isLoading (state w))
      (error (state w)) u (subscribers (state w)).
Proof. unfold assigned. cbn [step]. unfold setTemperatureUnit. by rewrite state_notify. Qed.

(** The controller's call with its result spelled out. *)
Lemma call_result (a : action) (w : world) :
  wired w ->
  notifies a = true ->
  exists w' : world,
    App.call a w = Some w'
    /\ wired w'
    /\ state w' = assigned a w
    /\ storage w' = saved (assigned a w) (storage w).
Proof.
  intros Hw Ha. destruct (call_notifies a w Hw Ha) as [Hcall Hsubs].
  eexists. split; [done|]. split; [|done]. destruct Hw as [Hs _].
  split; [|done]. cbn. by rewrite Hsubs.
Qed.

Lemma start_result (location : LocationSuggestion.t) (this : App.t) :
  wired (App.state this) ->
  exists after : App.t,
    App.loadWeatherForLocation_start location this = Some after
    /\ wired (App.state after)
    /\ state (App.state after)
       = AppState.mk (LocationSuggestion.to_value location)
           (weatherData (state (App.state this))) true None
           (temperatureUnit (state (App.state this)))
           (subscribers (state (App.state this)))
    /\ (accepting (storage (App.state this)) ->
        accepting (storage (App.state after))
        /\ Storage.items (storage (App.state after)) !! LOCATION_ITEM
           = Some (Storage.JSON_stringify (LocationSuggestion.to_value location)))
    /\ App.weatherService after = App.weatherService this
    /\ App.currentWeather after = CurrentWeather.showLoading (App.currentWeather this)
    /\ App.weatherForecast after = WeatherForecast.showLoading (App.weatherForecast this)
    /\ App.locationSearch after = App.locationSearch this
    /\ App.status after = App.status this
    /\ App.console after = App.console this.
Proof.
  intros Hw. unfold App.loadWeatherForLocation_start.
  destruct (call_result (SetLocation (LocationSuggestion.to_value location)) (App.state this) Hw eq_refl)
    as (w1 & -> & Hw1 & Hs1 & Hl1).
  destruct (call_result (SetLoading true) w1 Hw1 eq_refl) as (w2 & H2 & Hw2 & Hs2 & Hl2).
  cbn [mbind option_bind]. rewrite H2. cbn [mbind option_bind].
  eexists. split; [done|]. cbn [App.state App.weatherService App.currentWeather
    App.weatherForecast App.locationSearch App.status App.console].
  split; [done|]. split.
  { rewrite Hs2, assigned_setLoading, Hs1, assigned_setLocation. done. }
  split; [|done].
  intros Hacc. rewrite Hl2, Hl1.
  destruct (saved_accepting (assigned (SetLocation (LocationSuggestion.to_value location))
                               (App.state this)) (storage (App.state this)) Hacc) as (Ha1 & _).
  destruct (saved_accepting (assigned (SetLoading true) w1) _ Ha1) as (Ha2 & _ & Hloc).
  split; [done|]. rewrite Hloc; rewrite assigned_setLoading, Hs1, assigned_setLocation; done.
Qed.

Lemma settle_result (data : WeatherData.t) (this : App.t) :
  wired (App.state this) ->
  exists after : App.t,
    App.loadWeatherForLocation_settle (Normal data) this = Some after
    /\ wired (App.state after)
    /\ state (App.state after)
       = AppState.mk (currentLocation (state (App.state this))) (Some data) false None
           (temperatureUnit (state (App.state this)))
           (subscribers (state (App.state this)))
    /\ App.weatherService after = App.weatherService this
    /\ App.currentWeather after = CurrentWeather.render data (App.currentWeather this)
    /\ App.weatherForecast after
       = WeatherForecast.render (WeatherData.forecast data)
           (temperatureUnit (state (App.state this))) (App.weatherForecast this)
    /\ App.locationSearch after = App.locationSearch this
    /\ App.status after = App.status this
    /\ App.console after = App.console this.
Proof.
  intros Hw. unfold App.loadWeatherForLocation_settle.
  destruct (call_result (SetWeatherData data) (App.state this) Hw eq_refl)
    as (w1 & -> & Hw1 & Hs1 & _).
  destruct (call_result (SetLoading false) w1 Hw1 eq_refl) as (w2 & H2 & Hw2 & Hs2 & _).
  cbn [mbind option_bind]. rewrite H2. cbn [mbind option_bind step].
  rewrite saveToStorage_saved. cbn [mbind option_bind].
  eexists. split; [done|]. cbn [App.state App.weatherService App.currentWeather
    App.weatherForecast App.locationSearch App.status App.console state].
  split; [by destruct Hw2|].
  rewrite Hs2, assigned_setLoading, Hs1, assigned_setWeatherData.
  cbn [temperatureUnit]. by repeat split.
Qed.

Lemma handleError_result (failure : Error.t) (this : App.t) :
  wired (App.state this) ->
  exists after : App.t,
    App.handleError failure this = Some after
    /\ wired (App.state after)
    /\ state (App.state after)
       = AppState.mk (currentLocation (state (App.state this)))
           (weatherData (state (App.state this))) false (Some (Error.message failure))
           (temperatureUnit (state (App.state this)))
           (subscribers (state (App.state this)))
    /\ storage (App.state after)
       = saved (assigned (SetError (Some (Error.message failure))) (App.state this))
           (storage (App.state this))
    /\ App.currentWeather after
       = CurrentWeather.showError (Error.message failure) (App.currentWeather this)
    /\ App.weatherForecast after = App.weatherForecast this.
Proof.
  intros Hw. unfold App.handleError.
  destruct (call_result (SetError (Some (Error.message failure))) (App.state this) Hw eq_refl)
    as (w1 & -> & Hw1 & Hs1 & Hl1).
  cbn [mbind option_bind]. eexists. split; [done|].
  cbn [App.state App.currentWeather App.weatherForecast].
  split; [done|]. split; [by rewrite Hs1, assigned_setError|]. by repeat split.
Qed.

Lemma load_success_result
    (axios : Axios.t) (location : LocationSuggestion.t) (data : WeatherData.t) (this : App.t) :
  wired (App.state this) ->
  WeatherService.getForecast (App.weatherService this) axios
    (LocationSuggestion.name location) 5%float = Normal data ->
  exists after : App.t,
    App.loadWeatherForLocation axios location this = Some after
    /\ wired (App.state after)
    /\ state (App.state after)
       = AppState.mk (LocationSuggestion.to_value location) (Some data) false None
           (temperatureUnit (state (App.state this)))
           (subscribers (state (App.state this)))
    /\ App.currentWeather after = CurrentWeather.render data (App.currentWeather this)
    /\ App.weatherForecast after
       = WeatherForecast.render (WeatherData.forecast data)
           (temperatureUnit (state (App.state this))) (App.weatherForecast this).
Proof.
  intros Hw Hfetch. unfold App.loadWeatherForLocation.
  destruct (start_result location this Hw)
    as (a1 & -> & Hw1 & Hs1 & _ & Hsvc & Hcw & Hwf & _).
  cbn [mbind option_bind]. rewrite Hsvc, Hfetch.
  destruct (settle_result data a1 Hw1) as (a2 & -> & Hw2 & Hs2 & _ & Hcw2 & Hwf2 & _).
  exists a2. split; [done|]. split; [done|].
  rewrite Hs2, Hcw2, Hwf2, Hs1, Hcw, Hwf. by repeat split.
Qed.

(** A location change whose fetch succeeds.  In whatever state the
    controller is when the fetch settles, its subscription in place, the
    rest of the function puts the snapshot in the state, clears the
    loading flag and the error, keeps the location and the unit that the
    state has by then, and shows the snapshot in both panels, the
    forecast in the unit of the state.  The start of the function made
    the new location the current one; with nothing else running while the
    fetch is awaited it still is when the function ends. *)
Theorem load_success
    (axios : Axios.t) (location : LocationSuggestion.t) (data : WeatherData.t) (this : App.t) :
  wired (App.state this) ->
  (exists started : App.t,
     App.loadWeatherForLocation_start location this = Some started
     /\ wired (App.state started)
     /\ currentLocation (state (App.state started)) = LocationSuggestion.to_value location
     /\ isLoading (state (App.state started)) = true
     /\ error (state (App.state started)) = None
     /\ weatherData (state (App.state started)) = weatherData (state (App.state this))
     /\ temperatureUnit (state (App.state started)) = temperatureUnit (state (App.state this)))
  /\ (forall settling : App.t,
        wired (App.state settling) ->
        exists after : App.t,
          App.loadWeatherForLocation_settle (Normal data) settling = Some after
          /\ wired (App.state after)
          /\ weatherData (state (App.state after)) = Some data
          /\ isLoading (state (App.state after)) = false
          /\ error (state (App.state after)) = None
          /\ currentLocation (state (App.state after))
             = currentLocation (state (App.state settling))
          /\ temperatureUnit (state (App.state after))
             = temperatureUnit (state (App.state settling))
          /\ App.currentWeather after = CurrentWeather.render data (App.currentWeather settling)
          /\ App.weatherForecast after
             = WeatherForecast.render (WeatherData.forecast data)
                 (temperatureUnit (state (App.state settling))) (App.weatherForecast settling))
  /\ (WeatherService.getForecast (App.weatherService this) axios
        (LocationSuggestion.name location) 5%float = Normal data ->
      exists after : App.t,
        App.loadWeatherForLocation axios location this = Some after
        /\ wired (App.state after)
        /\ currentLocation (state (App.state after)) = LocationSuggestion.to_value location
        /\ weatherData (state (App.state after)) = Some data
        /\ isLoading (state (App.state after)) = false
        /\ error (state (App.state after)) = None
        /\ temperatureUnit (state (App.state after)) = temperatureUnit (state (App.state this))
        /\ App.currentWeather after = CurrentWeather.render data (App.currentWeather this)
        /\ App.weatherForecast after
           = WeatherForecast.render (WeatherData.forecast data)
               (temperatureUnit (state (App.state this))) (App.weatherForecast this)).
Proof.
  intros Hw. split; [|split].
  - destruct (start_result location this Hw) as (a1 & H1 & Hw1 & Hs1 & _).
    exists a1. split; [done|]. split; [done|]. rewrite Hs1. by repeat split.
  - intros settling Hws.
    destruct (settle_result data settling Hws) as (a2 & H2 & Hw2 & Hs2 & _ & Hcw & Hwf & _).
    exists a2. split; [done|]. split; [done|]. rewrite Hs2. by repeat split.
  - intros Hfetch.
    destruct (load_success_result axios location data this Hw Hfetch)
      as (after & Hload & Hwa & Hs & Hcw & Hwf).
    exists after. split; [done|]. split; [done|]. rewrite Hs. by repeat split.
Qed.

(** A location change makes the location the current one and, the store
    taking writes, the stored last location (as [JSON.stringify] writes
    it) before its fetch is awaited.  The handling of a failed fetch
    takes nothing of that back: in whatever state the controller is when
    the fetch settles, its subscription in place, it leaves the current
    location and the snapshot as they are by then, and its notification
    stores that current location again.  With nothing else running while
    the fetch is awaited, a failed change ends with the new location
    current and stored, and the snapshot the earlier one. *)
Theorem failed_change_persists_location
    (axios : Axios.t) (location : LocationSuggestion.t) (failure : Error.t) (this : App.t) :
  wired (App.state this) ->
  accepting (storage (App.state this)) ->
  (exists started : App.t,
     App.loadWeatherForLocation_start location this = Some started
     /\ wired (App.state started)
     /\ accepting (storage (App.state started))
     /\ currentLocation (state (App.state started)) = LocationSuggestion.to_value location
     /\ Storage.items (storage (App.state started)) !! LOCATION_ITEM
        = Some (Storage.JSON_stringify (LocationSuggestion.to_value location))
     /\ weatherData (state (App.state started)) = weatherData (state (App.state this)))
  /\ (forall settling : App.t,
        wired (App.state settling) ->
        exists after : App.t,
          App.loadWeatherForLocation_settle (Throw failure) settling = Some after
          /\ currentLocation (state (App.state after))
             = currentLocation (state (App.state settling))
          /\ weatherData (state (App.state after)) = weatherData (state (App.state settling))
          /\ (accepting (storage (App.state settling)) ->
              Js.truthy (currentLocation (state (App.state settling))) = true ->
              Storage.items (storage (App.state after)) !! LOCATION_ITEM
              = Some (Storage.JSON_stringify (currentLocation (state (App.state settling)))))
          /\ (Js.truthy (currentLocation (state (App.state settling))) = false ->
              Storage.items (storage (App.state after)) !! LOCATION_ITEM
              = Storage.items (storage (App.state settling)) !! LOCATION_ITEM))
  /\ (WeatherService.getForecast (App.weatherService this) axios
        (LocationSuggestion.name location) 5%float = Throw failure ->
      exists after : App.t,
        App.loadWeatherForLocation axios location this = Some after
        /\ currentLocation (state (App.state after)) = LocationSuggestion.to_value location
        /\ Storage.items (storage (App.state after)) !! LOCATION_ITEM
           = Some (Storage.JSON_stringify (LocationSuggestion.to_value location))
        /\ weatherData (state (App.state after)) = weatherData (state (App.state this))).
Proof.
  intros Hw Hacc.
  assert (forall settling : App.t,
            wired (App.state settling) ->
            exists after : App.t,
              App.loadWeatherForLocation_settle (Throw failure) settling = Some after
              /\ currentLocation (state (App.state after))
                 = currentLocation (state (App.state settling))
              /\ weatherData (state (App.state after))
                 = weatherData (state (App.state settling))
              /\ (accepting (storage (App.state settling)) ->
                  Js.truthy (currentLocation (state (App.state settling))) = true ->
                  Storage.items (storage (App.state after)) !! LOCATION_ITEM
                  = Some (Storage.JSON_stringify
                            (currentLocation (state (App.state settling)))))
              /\ (Js.truthy (currentLocation (state (App.state settling))) = false ->
                  Storage.items (storage (App.state after)) !! LOCATION_ITEM
                  = Storage.items (storage (App.state settling)) !! LOCATION_ITEM))
    as Hsettle.
  { intros settling Hws. cbn [App.loadWeatherForLocation_settle].
    destruct (handleError_result failure settling Hws) as (a2 & -> & _ & Hs2 & Hl2 & _).
    exists a2. split; [done|]. rewrite Hs2. cbn [currentLocation weatherData].
    split; [done|]. split; [done|]. rewrite Hl2. split.
    - intros Hacc' Ht.
      destruct (saved_accepting
                  (assigned (SetError (Some (Error.message failure))) (App.state settling))
                  (storage (App.state settling)) Hacc') as (_ & _ & Hloc).
      rewrite Hloc; by rewrite assigned_setError.
    - intros Ht. apply saved_location_untouched. by rewrite assigned_setError. }
  destruct (start_result location this Hw)
    as (a1 & H1 & Hw1 & Hs1 & Hst1 & Hsvc & _).
  destruct (Hst1 Hacc) as [Hacc1 Hloc1].
  split; [|split; [exact Hsettle|]].
  - exists a1. split; [done|]. split; [done|]. split; [done|]. rewrite Hs1. by repeat split.
  - intros Hfetch. unfold App.loadWeatherForLocation. rewrite H1.
    cbn [mbind option_bind]. rewrite Hsvc, Hfetch.
    destruct (Hsettle a1 Hw1) as (a2 & -> & Hc2 & Hd2 & Hl2 & _).
    exists a2. split; [done|]. rewrite Hc2, Hd2, Hs1. cbn [currentLocation weatherData].
    split; [done|]. split; [|done].
    rewrite (Hl2 Hacc1) by (by rewrite Hs1). by rewrite Hs1.
Qed.

(** Two location changes under way at once: when the fetch of the first
    settles after the fetch of the second, the state and both panels end
    with the snapshot of the first while the current location is the
    second. *)
Theorem stale_response_overwrites
    (first second : LocationSuggestion.t) (data1 data2 : WeatherData.t) (this : App.t) :
  wired (App.state this) ->
  exists a1 a2 a3 a4 : App.t,
    App.loadWeatherForLocation_start first this = Some a1
    /\ App.loadWeatherForLocation_start second a1 = Some a2
    /\ App.loadWeatherForLocation_settle (Normal data2) a2 = Some a3
    /\ App.loadWeatherForLocation_settle (Normal data1) a3 = Some a4
    /\ currentLocation (state (App.state a4)) = LocationSuggestion.to_value second
    /\ weatherData (state (App.state a4)) = Some data1
    /\ App.currentWeather a4 = CurrentWeather.render data1 (App.currentWeather this)
    /\ App.weatherForecast a4
       = WeatherForecast.render (WeatherData.forecast data1)
           (temperatureUnit (state (App.state this))) (App.weatherForecast this).
Proof.
  intros Hw.
  destruct (start_result first this Hw) as (a1 & H1 & Hw1 & Hs1 & _ & _ & Hcw1 & Hwf1 & _).
  destruct (start_result second a1 Hw1) as (a2 & H2 & Hw2 & Hs2 & _ & _ & Hcw2 & Hwf2 & _).
  destruct (settle_result data2 a2 Hw2) as (a3 & H3 & Hw3 & Hs3 & _ & Hcw3 & Hwf3 & _).
  destruct (settle_result data1 a3 Hw3) as (a4 & H4 & Hw4 & Hs4 & _ & Hcw4 & Hwf4 & _).
  exists a1, a2, a3, a4. repeat (split; [done|]).
  rewrite Hs4, Hcw4, Hwf4, Hs3, Hcw3, Hwf3, Hs2, Hcw2, Hwf2, Hs1, Hcw1, Hwf1.
  by repeat split.
Qed.

Lemma assigned_loadFromStorage_unit (w : world) (u : TemperatureUnit) :
  stored (storage w) STORAGE_KEY_UNIT (unit_value u) ->
  temperatureUnit (assigned LoadFromStorage w) = u.
Proof.
  intros Hu. apply getStorageItem_stored in Hu.
  destruct (getStorageItem_normal (storage w) STORAGE_KEY_LOCATION) as [v1 H1].
  destruct (loadFromStorage_result w v1 _ H1 Hu) as (w' & Hload & _ & _ & Hunit).
  unfold assigned. cbn [step]. rewrite Hload, Hunit. by destruct u.
Qed.

(** The unit restored from the store reaches the state and the forecast
    panel, not the current-conditions panel: in a controller started
    over a store that holds the unit F, a location loads with its
    forecast in Fahrenheit and its current temperature in Celsius. *)
Theorem restored_unit_not_shown
    (svc : WeatherService.t) (ls : Storage.localStorage) (axios : Axios.t)
    (location : LocationSuggestion.t) (data : WeatherData.t) :
  stored ls STORAGE_KEY_UNIT (Js.Str "F") ->
  WeatherService.getForecast svc axios (LocationSuggestion.name location) 5%float
  = Normal data ->
  exists restored after : App.t,
    AppFlows.restore (App.setupStateSubscription (App.new svc ls)) = Some restored
    /\ App.loadWeatherForLocation axios location restored = Some after
    /\ temperatureUnit (state (App.state after)) = F
    /\ WeatherForecast.currentUnit (App.weatherForecast after) = F
    /\ CurrentWeather.container (App.currentWeather after)
       = CurrentWeather.Weather
           (Js.Math_round (CurrentConditions.temperature (WeatherData.current data))) C
           (WeatherData.location data) (WeatherData.current data).
Proof.
  intros Hu Hfetch. unfold AppFlows.restore.
  set (app0 := App.setupStateSubscription (App.new svc ls)).
  assert (wired (App.state app0)) as Hw0 by apply wired_setup.
  destruct (call_result LoadFromStorage (App.state app0) Hw0 eq_refl)
    as (w1 & -> & Hw1 & Hs1 & _).
  cbn [mbind option_bind].
  assert (temperatureUnit (state w1) = F) as HF.
  { rewrite Hs1. by apply (assigned_loadFromStorage_unit (App.state app0) F). }
  destruct (load_success_result axios location data (App.with_state w1 app0) Hw1 Hfetch)
    as (after & Hload & _ & Hs & Hcw & Hwf).
  eexists. exists after. split; [done|]. split; [done|].
  rewrite Hs, Hcw, Hwf. cbn [App.state App.with_state temperatureUnit]. rewrite HF.
  split; [done|]. split; [by destruct (WeatherData.forecast data)|done].
Qed.

Lemma unit_toggled (this : CurrentWeather.t) :
  CurrentWeather.unit (CurrentWeather.toggleTemperatureUnit this)
  = other_unit (CurrentWeather.unit this).
Proof. by destruct this as [m [] [d|]]. Qed.

(** The controller's unit toggle flips the unit of the state and the
    unit of the current-conditions panel, re-renders the forecast of the
    state's snapshot in the new unit, and stores the new unit when the
    store takes writes.  The two units agree after it exactly when they
    agreed before. *)
Theorem controller_toggle_unit (this : App.t) :
  wired (App.state this) ->
  exists after : App.t,
    AppFlows.toggleTemperatureUnit this = Some after
    /\ wired (App.state after)
    /\ temperatureUnit (state (App.state after))
       = other_unit (temperatureUnit (state (App.state this)))
    /\ CurrentWeather.unit (App.currentWeather after)
       = other_unit (CurrentWeather.unit (App.currentWeather this))
    /\ App.weatherForecast after
       = match weatherData (state (App.state this)) with
         | Some data =>
             WeatherForecast.render (WeatherData.forecast data)
               (other_unit (temperatureUnit (state (App.state this)))) (App.weatherForecast this)
         | None => App.weatherForecast this
         end
    /\ (temperatureUnit (state (App.state after)) = CurrentWeather.unit (App.currentWeather after)
        <-> temperatureUnit (state (App.state this))
            = CurrentWeather.unit (App.currentWeather this))
    /\ (accepting (storage (App.state this)) ->
        Storage.items (storage (App.state after)) !! UNIT_ITEM
        = Some (Storage.Json
                  (unit_value (other_unit (temperatureUnit (state (App.state this))))))).
Proof.
  intros Hw. unfold AppFlows.toggleTemperatureUnit.
  change (match temperatureUnit (state (App.state this)) with C => F | F => C end)
    with (other_unit (temperatureUnit (state (App.state this)))).
  set (u := other_unit (temperatureUnit (state (App.state this)))).
  destruct (call_result (SetTemperatureUnit u) (App.state this) Hw eq_refl)
    as (w1 & -> & Hw1 & Hs1 & Hl1).
  cbn [mbind option_bind step]. rewrite saveToStorage_saved. cbn [mbind option_bind].
  eexists. split; [done|].
  cbn [App.state App.currentWeather App.weatherForecast state storage].
  split; [by destruct Hw1|].
  rewrite Hs1, assigned_setTemperatureUnit. cbn [temperatureUnit weatherData].
  rewrite unit_toggled.
  split; [done|]. split; [done|]. split; [done|]. split.
  - unfold u. destruct (temperatureUnit (state (App.state this))),
      (CurrentWeather.unit (App.currentWeather this)); cbn; split; congruence.
  - intros Hacc. rewrite Hl1.
    destruct (saved_accepting (assigned (SetTemperatureUnit u) (App.state this))
                (storage (App.state this)) Hacc) as (Hacc1 & _).
    match goal with
    | |- Storage.items (saved ?s ?l) !! _ = _ =>
        destruct (saved_accepting s l Hacc1) as (_ & Hu & _)
    end.
    exact Hu.
Qed.


End ControllerFlows.

Lemma accepting_empty_store : accepting empty_store.
Proof. split; [reflexivity|]. intros k t. reflexivity. Qed.

Lemma load_success_witness :
  exists after : App.t,
    App.loadWeatherForLocation answers_london london fresh_app = Some after
    /\ AppState.currentLocation (AppState.state (App.state after))
       = LocationSuggestion.to_value london
    /\ AppState.weatherData (AppState.state (App.state after))
       = Some (WeatherService.transformWeatherResponse london_response)
    /\ AppState.isLoading (AppState.state (App.state after)) = false.
Proof.
  destruct (proj2 (proj2 (load_success answers_london london
              (WeatherService.transformWeatherResponse london_response) fresh_app
              (wired_setup demo_service empty_store))) eq_refl)
    as (after & Hload & _ & Hloc & Hdata & Hloading & _).
  exists after. split; [exact Hload|]. split; [exact Hloc|]. split; [exact Hdata|exact Hloading].
Defined.

Lemma failed_change_persists_location_witness :
  exists after : App.t,
    App.loadWeatherForLocation (failing status_404) paris fresh_app = Some after
    /\ AppState.currentLocation (AppState.state (App.state after))
       = LocationSuggestion.to_value paris
    /\ Storage.items (AppState.storage (App.state after)) !! LOCATION_ITEM
       = Some (Storage.Json (LocationSuggestion.to_value paris))
    /\ AppState.weatherData (AppState.state (App.state after)) = None.
Proof.
  refine (proj2 (proj2 (failed_change_persists_location (failing status_404) paris _ fresh_app
            (wired_setup demo_service empty_store) accepting_empty_store)) _).
  vm_compute; reflexivity.
Defined.

Lemma stale_response_overwrites_witness :
  exists a1 a2 a3 a4 : App.t,
    App.loadWeatherForLocation_start london fresh_app = Some a1
    /\ App.loadWeatherForLocation_start paris a1 = Some a2
    /\ App.loadWeatherForLocation_settle
         (Normal (WeatherData.mk (WeatherLocation.mk "Paris" "France" 48.875%float 2.375%float)
                    (WeatherData.current (WeatherService.transformWeatherResponse london_response))
                    [])) a2 = Some a3
    /\ App.loadWeatherForLocation_settle
         (Normal (WeatherService.transformWeatherResponse london_response)) a3 = Some a4
    /\ AppState.currentLocation (AppState.state (App.state a4)) = LocationSuggestion.to_value paris
    /\ AppState.weatherData (AppState.state (App.state a4))
       = Some (WeatherService.transformWeatherResponse london_response)
    /\ App.currentWeather a4
       = CurrentWeather.render (WeatherService.transformWeatherResponse london_response)
           (App.currentWeather fresh_app)
    /\ App.weatherForecast a4
       = WeatherForecast.render
           (WeatherData.forecast (WeatherService.transformWeatherResponse london_response))
           (AppState.temperatureUnit (AppState.state (App.state fresh_app)))
           (App.weatherForecast fresh_app).
Proof.
  exact (stale_response_overwrites london paris
           (WeatherService.transformWeatherResponse london_response)
           (WeatherData.mk (WeatherLocation.mk "Paris" "France" 48.875%float 2.375%float)
              (WeatherData.current (WeatherService.transformWeatherResponse london_response)) [])
           fresh_app (wired_setup demo_service empty_store)).
Defined.

Lemma restored_unit_not_shown_witness :
  exists restored after : App.t,
    AppFlows.restore (App.setupStateSubscription (App.new demo_service paris_store))
    = Some restored
    /\ App.loadWeatherForLocation answers_london london restored = Some after
    /\ AppState.temperatureUnit (AppState.state (App.state after)) = F
    /\ WeatherForecast.currentUnit (App.weatherForecast after) = F
    /\ CurrentWeather.container (App.currentWeather after)
       = CurrentWeather.Weather (Js.Int 20) C
           (WeatherData.location (WeatherService.transformWeatherResponse london_response))
           (WeatherData.current (WeatherService.transformWeatherResponse london_response)).
Proof.
  refine (restored_unit_not_shown demo_service paris_store answers_london london
            (WeatherService.transformWeatherResponse london_response) _ _).
  - split; vm_compute; reflexivity.
  - vm_compute; reflexivity.
Defined.

Lemma controller_toggle_unit_witness :
  exists after : App.t,
    AppFlows.toggleTemperatureUnit fresh_app = Some after
    /\ AppState.temperatureUnit (AppState.state (App.state after)) = F
    /\ CurrentWeather.unit (App.currentWeather after) = F.
Proof.
  destruct (controller_toggle_unit fresh_app (wired_setup demo_service empty_store))
    as (after & Htoggle & _ & Hu & Hcw & _).
  exists after. split; [exact Htoggle|]. split; [exact Hu|exact Hcw].
Defined.


(* ================================================================== *)
(** * Further properties: nested notifications, the stuck input *)
(* ================================================================== *)

Section Reentrancy.

Import AppState.

Lemma replicate_app_cons {A} (n : nat) (x : A) (l : list A) :
  replicate n x ++ x :: l = x :: replicate n x ++ l.
Proof. induction n as [|n IH]; cbn; [done|]. by rewrite IH. Qed.

Lemma first_of_live (entries : list (option Subscriber)) (c : Subscriber) (rest : list Subscriber) :
  live entries = c :: rest -> exists j : nat, Set_next entries 0 = Some (j, c).
Proof.
  intros H. pose proof (Set_next_live entries 0) as Hn. rewrite drop_0 in Hn.
  destruct (Set_next entries 0) as [[j c']|]; [|congruence].
  destruct Hn as [_ Hn]. rewrite H in Hn. injection Hn as <- _. by exists j.
Qed.

(** Nothing bounds the recursion of notifications: each notifying call
    made while callbacks are running, the running callback's own
    notification included, starts a notification inside the ones under
    way and invokes the first subscriber again at once. *)
Theorem nested_notifications
    (calls : list action) (w : world) (c : Subscriber) (rest : list Subscriber) :
  forallb notifies calls = true ->
  live (subscribers (state w)) = c :: rest ->
  exists w' : world,
    run calls w = Some w'
    /\ invoked w' = replicate (length calls) c ++ invoked w
    /\ length (loops w') = length calls + length (loops w)
    /\ subscribers (state w') = subscribers (state w).
Proof.
  revert w. induction calls as [|a calls IH]; intros w Hcalls Hlive.
  - by exists w.
  - cbn in Hcalls. apply andb_true_iff in Hcalls as [Ha Hcalls].
    destruct (step_notifies a w Ha) as (s' & Hstep & Hsubs).
    destruct (first_of_live _ c rest Hlive) as [j Hnext].
    assert (step a w = Some (mkWorld s' (storage w) (S j :: loops w) (c :: invoked w))) as Hs.
    { rewrite Hstep. unfold notify, next_iteration. cbn [loops state storage invoked].
      by rewrite Hsubs, Hnext. }
    destruct (IH (mkWorld s' (storage w) (S j :: loops w) (c :: invoked w)) Hcalls)
      as (w' & Hrun & Hinv & Hloops & Hsame).
    { cbn. by rewrite Hsubs. }
    exists w'. cbn [run]. rewrite Hs. split; [done|]. cbn in *.
    split; [by rewrite Hinv, replicate_app_cons|]. split; [lia|]. by rewrite Hsame.
Qed.

End Reentrancy.

Lemma nested_notifications_witness :
  let w := AppState.subscribe 0 (AppState.boot empty_store) in
  exists w' : AppState.world,
    AppState.run [AppState.SetLoading true; AppState.SetError None; AppState.SetLoading true] w
    = Some w'
    /\ AppState.invoked w' = [0; 0; 0]
    /\ length (AppState.loops w') = 3.
Proof.
  intros w.
  destruct (nested_notifications
              [AppState.SetLoading true; AppState.SetError None; AppState.SetLoading true]
              w 0 [] eq_refl eq_refl)
    as (w' & Hrun & Hinv & Hloops & _).
  exists w'. split; [exact Hrun|]. split; [exact Hinv|exact Hloops].
Defined.

Lemma empty_result_keeps_placeholder_witness :
  LocationSearch.inputValue
    (LocationSearch.handleGeolocation (fun _ => "0")
       (Some (Normal (LocationSearch.GeolocationCoordinates.mk 48.875%float 2.375%float)))
       demo_service finds_nothing LocationSearch.new)
  = "Detecting location...".
Proof.
  apply (empty_result_keeps_placeholder (fun _ => "0") demo_service finds_nothing
           LocationSearch.new
           (LocationSearch.GeolocationCoordinates.mk 48.875%float 2.375%float)).
  reflexivity.
Defined.
